(** * Retry / backoff policy and the Anthropic adapter of ai-evaluator-extension

    A shallow embedding of
    - [lib/retryWithBackoff.ts]: [isOverloadedError], [extractRetryAfter],
      [retryWithBackoff] and [DEFAULT_RETRY_CONFIG];
    - [lib/getChatCompletion/anthropic/index.ts]: [buildRequestBody],
      [handleApiResponse], [checkRateLimitHeaders], [updateRateLimit] and
      [getChatCompletion];
    - [lib/prompts/promptTemplates.ts] and the prompt builder: the
      single-axis template, [getTemplate], [buildPrompt] and
      [getRankingKeyword];
    - [lib/models/config.ts] and the formatter that uses it: the model
      tables, [formatModelName] and [formatProviderModel].

    Conventions of the embedding.
    - A JavaScript [number] is a [Z]: the counters, caps, delays and status
      codes of this code are integers.  [undefined] and [NaN] are [None].
      A JavaScript number holds every integer up to 2^53 exactly; beyond
      that it rounds, and it overflows to [Infinity], for which the sleep
      between two attempts never returns.  The theorems whose content
      depends on a delay being exact, or on a sleep ending, say so by a
      hypothesis ([safeDelay], [sleepsEnd]).
    - A JavaScript string is a [string] whose characters are the code units
      U+0000 .. U+00FF.
    - A [Promise] that rejects, and a [throw], are the [Throw] outcome.
    - The caps of a configuration are integers, and a status callback, when
      one is supplied, returns: a cap that is [NaN] or [Infinity] and a
      callback that throws are outside the model.  A theorem that holds only
      without a callback says so by a hypothesis.
    - Invocations of the retried function, calls of the status callback and
      sleeps are events of a trace, in program order.  [Logger] lines are
      not part of the model: they never change a value or the control flow. *)

From Stdlib Require Import ZArith Bool List String Ascii DecimalString Lia.
From Stdlib Require Import DecimalPos.
Import ListNotations.

Local Open Scope string_scope.
Local Open Scope Z_scope.

(* ================================================================== *)
(** ** JavaScript strings *)
(* ================================================================== *)

Module JsString.

(** One code unit of [String.prototype.toLowerCase]: [A-Z] and the upper-case
    letters of the Latin-1 supplement (U+00C0 .. U+00DE without the
    multiplication sign U+00D7) move up by 32. *)
Definition lowerChar (c : ascii) : ascii :=
  let n := N_of_ascii c in
  if ((65 <=? n) && (n <=? 90))%N
     || ((192 <=? n) && (n <=? 222) && negb (n =? 215))%N
  then ascii_of_N (n + 32)
  else c.

(** [s.toLowerCase()] *)
Fixpoint toLowerCase (s : string) : string :=
  match s with
  | EmptyString => EmptyString
  | String c r => String (lowerChar c) (toLowerCase r)
  end.

(** [s.startsWith(p)] *)
Fixpoint startsWith (p s : string) : bool :=
  match p, s with
  | EmptyString, _ => true
  | String _ _, EmptyString => false
  | String a p', String b s' => Ascii.eqb a b && startsWith p' s'
  end.

(** [hay.includes(needle)]: the needle occurs at some position of [hay]. *)
Fixpoint includes (needle hay : string) : bool :=
  startsWith needle hay ||
  match hay with
  | EmptyString => false
  | String _ rest => includes needle rest
  end.

(** The template-literal rendering [`${n}`] of an integer. *)
Definition showZ (n : Z) : string :=
  NilZero.string_of_int (Z.to_int n).

(** [needle] occurs in [hay]. *)
Definition Substring (needle hay : string) : Prop :=
  exists pre post, hay = pre ++ needle ++ post.

End JsString.

(* ================================================================== *)
(** ** JavaScript arrays *)
(* ================================================================== *)

Module JsArray.

(** [array[i]]: [undefined] outside the array. *)
Definition index {A} (l : list A) (i : Z) : option A :=
  if i <? 0 then None else nth_error l (Z.to_nat i).

(** [array.slice(0, -1)]: the elements before position
    [max(length - 1, 0)]. *)
Definition sliceButLast {A} (l : list A) : list A :=
  firstn (Z.to_nat (Z.max (Z.of_nat (List.length l) - 1) 0)) l.

(** [array[i] = x] for a position inside the array. *)
Fixpoint setAt {A} (l : list A) (i : nat) (x : A) : list A :=
  match l, i with
  | [], _ => []
  | _ :: r, O => x :: r
  | y :: r, Datatypes.S i' => y :: setAt r i' x
  end.

End JsArray.

(* ================================================================== *)
(** ** Errors and outcomes *)
(* ================================================================== *)

(** The constructor an error object was built with. *)
Inductive ErrorKind := PlainError | TypeError | SyntaxError.

(** A JavaScript [Error] object: its class and its [message]. *)
Record Error := mkError { kind : ErrorKind; message : string }.

(** What awaiting a promise gives: a value, or a thrown error. *)
Inductive Outcome (T : Type) :=
| Return (v : T)
| Throw (e : Error).
Arguments Return {T} v.
Arguments Throw {T} e.

(* ================================================================== *)
(** ** lib/retryWithBackoff.ts *)
(* ================================================================== *)

Module Retry.
Import JsString JsArray.

(** [RetryConfig].  [onRetryStatus] records whether a callback is supplied;
    what the callback receives is in the trace. *)
Record RetryConfig := mkRetryConfig {
  maxOverloadRetries : Z;
  overloadBackoffDelays : list Z;
  maxOtherRetries : Z;
  otherRetryDelay : Z;
  onRetryStatus : bool
}.

(** [Partial<RetryConfig>]: every property may be absent. *)
Record PartialRetryConfig := mkPartial {
  p_maxOverloadRetries : option Z;
  p_overloadBackoffDelays : option (list Z);
  p_maxOtherRetries : option Z;
  p_otherRetryDelay : option Z;
  p_onRetryStatus : option bool
}.

(** The empty object [{}], the default of the [config] argument. *)
Definition emptyConfig : PartialRetryConfig :=
  mkPartial None None None None None.

Definition DEFAULT_RETRY_CONFIG : RetryConfig := {|
  maxOverloadRetries := 5;
  overloadBackoffDelays := [10000; 20000; 40000; 60000; 60000];
  maxOtherRetries := 3;
  otherRetryDelay := 1000;
  onRetryStatus := false
|}.

Definition orDefault {A} (o : option A) (d : A) : A :=
  match o with Some a => a | None => d end.

(** [{ ...DEFAULT_RETRY_CONFIG, ...config }] *)
Definition fullConfig (config : PartialRetryConfig) : RetryConfig := {|
  maxOverloadRetries :=
    orDefault (p_maxOverloadRetries config) (maxOverloadRetries DEFAULT_RETRY_CONFIG);
  overloadBackoffDelays :=
    orDefault (p_overloadBackoffDelays config) (overloadBackoffDelays DEFAULT_RETRY_CONFIG);
  maxOtherRetries :=
    orDefault (p_maxOtherRetries config) (maxOtherRetries DEFAULT_RETRY_CONFIG);
  otherRetryDelay :=
    orDefault (p_otherRetryDelay config) (otherRetryDelay DEFAULT_RETRY_CONFIG);
  onRetryStatus :=
    orDefault (p_onRetryStatus config) (onRetryStatus DEFAULT_RETRY_CONFIG)
|}.

(** The seven markers [isOverloadedError] looks for, in the order of the
    source. *)
Definition overloadMarkers : list string :=
  [ "status 529"; "status 429"; "status 503"; "overloaded";
    "overload_error"; "rate limit"; "service unavailable" ].

Definition isOverloadedError (error : Error) : bool :=
  let errorMessage := toLowerCase (message error) in
  includes "status 529" errorMessage ||
  includes "status 429" errorMessage ||
  includes "status 503" errorMessage ||
  includes "overloaded" errorMessage ||
  includes "overload_error" errorMessage ||
  includes "rate limit" errorMessage ||
  includes "service unavailable" errorMessage.

(** *** The regular expression [/retry[- ]after[:\s]+(\d+)/i] *)

(** [[- ]] *)
Definition isSep (c : ascii) : bool :=
  Ascii.eqb c "-" || Ascii.eqb c " ".

(** [\s], on the code units of the model: tab, line feed, vertical tab, form
    feed, carriage return, space and the no-break space U+00A0. *)
Definition isWhitespace (c : ascii) : bool :=
  let n := N_of_ascii c in
  (((9 <=? n) && (n <=? 13)) || (n =? 32) || (n =? 160))%N.

(** [[:\s]] *)
Definition isGap (c : ascii) : bool :=
  Ascii.eqb c ":" || isWhitespace c.

(** [\d] *)
Definition isDigit (c : ascii) : bool :=
  let n := N_of_ascii c in ((48 <=? n) && (n <=? 57))%N.

Fixpoint takeWhile (p : ascii -> bool) (s : string) : string :=
  match s with
  | EmptyString => EmptyString
  | String c r => if p c then String c (takeWhile p r) else EmptyString
  end.

Fixpoint dropWhile (p : ascii -> bool) (s : string) : string :=
  match s with
  | EmptyString => EmptyString
  | String c r => if p c then dropWhile p r else s
  end.

(** A lower-case literal of the pattern matched at the head of [s] under the
    [i] flag; the result is what follows the match. *)
Fixpoint matchLiteralCI (lit s : string) : option string :=
  match lit, s with
  | EmptyString, _ => Some s
  | String _ _, EmptyString => None
  | String a lit', String b s' =>
      if Ascii.eqb (lowerChar b) a then matchLiteralCI lit' s' else None
  end.

(** The pattern matched with its first character at the head of [s]; the
    result is capture group 1.  The classes [[:\s]] and [\d] are disjoint,
    so the greedy [+] never gives a character back. *)
Definition matchHere (s : string) : option string :=
  match matchLiteralCI "retry" s with
  | Some (String c r1) =>
      if isSep c then
        match matchLiteralCI "after" r1 with
        | Some r2 =>
            match takeWhile isGap r2 with
            | EmptyString => None
            | String _ _ =>
                match takeWhile isDigit (dropWhile isGap r2) with
                | EmptyString => None
                | String d ds => Some (String d ds)
                end
            end
        | None => None
        end
      else None
  | _ => None
  end.

(** [s.match(re)] for the pattern: the leftmost match; the result is
    capture group 1, [None] is [null]. *)
Fixpoint matchRetryAfter (s : string) : option string :=
  match matchHere s with
  | Some ds => Some ds
  | None =>
      match s with
      | EmptyString => None
      | String _ r => matchRetryAfter r
      end
  end.

(** Every character of [s] is in the class [p]. *)
Fixpoint allChars (p : ascii -> bool) (s : string) : bool :=
  match s with
  | EmptyString => true
  | String c r => p c && allChars p r
  end.

(** [s] does not begin with a character of the class [p]. *)
Definition headFails (p : ascii -> bool) (s : string) : bool :=
  match s with
  | EmptyString => true
  | String c _ => negb (p c)
  end.

(** What the pattern matches, spelled out.  [HintHere ds s]: [s] begins with
    "retry" in any case, a hyphen or a space, "after" in any case, one or
    more colons or white-space characters, and the longest run of digits
    [ds], which is not empty. *)
Definition HintHere (ds s : string) : Prop :=
  exists w1 c w2 gap post,
    s = (w1 ++ String c (w2 ++ gap ++ ds ++ post))%string
    /\ toLowerCase w1 = "retry" /\ isSep c = true
    /\ toLowerCase w2 = "after"
    /\ gap <> "" /\ allChars isGap gap = true
    /\ ds <> "" /\ allChars isDigit ds = true
    /\ headFails isDigit post = true.

(** [ds] is the hint of [s]: the pattern matches at some position with
    capture [ds], and at no position before it. *)
Definition FirstHint (ds s : string) : Prop :=
  exists pre rest,
    s = (pre ++ rest)%string
    /\ HintHere ds rest
    /\ forall p1 p2 ds', pre = (p1 ++ p2)%string -> p2 <> "" ->
                         ~ HintHere ds' (p2 ++ rest).

(** The pattern matches nowhere in [s]. *)
Definition NoHint (s : string) : Prop :=
  forall pre rest ds, s = (pre ++ rest)%string -> ~ HintHere ds rest.

Definition digitValue (c : ascii) : Z := Z.of_N (N_of_ascii c) - 48.

Fixpoint parseDigits (acc : Z) (s : string) : Z :=
  match s with
  | EmptyString => acc
  | String c r => parseDigits (acc * 10 + digitValue c) r
  end.

(** [Number.parseInt] on a string of decimal digits. *)
Definition parseInt (ds : string) : Z := parseDigits 0 ds.

Definition extractRetryAfter (error : Error) : option Z :=
  match matchRetryAfter (message error) with
  | Some ds => Some (parseInt ds * 1000)
  | None => None
  end.

(** *** The [catch] block of [retryWithBackoff] *)

(** [isOverloaded ? maxOverloadRetries : maxOtherRetries] *)
Definition maxRetriesFor (cfg : RetryConfig) (lastError : Error) : Z :=
  if isOverloadedError lastError
  then maxOverloadRetries cfg
  else maxOtherRetries cfg.

(** The value [delay] gets.  [if (retryAfter)] is false for [null] and for
    the number 0.  [attemptNumber] is at least 1 wherever the loop gets
    here, so the exponent of [Math.pow] is a natural number. *)
Definition chooseDelay (cfg : RetryConfig) (lastError : Error) (attemptNumber : Z)
  : option Z :=
  if isOverloadedError lastError then
    let scheduled :=
      index (overloadBackoffDelays cfg)
            (Z.min (attemptNumber - 1)
                   (Z.of_nat (List.length (overloadBackoffDelays cfg)) - 1)) in
    match extractRetryAfter lastError with
    | Some retryAfter => if retryAfter =? 0 then scheduled else Some retryAfter
    | None => scheduled
    end
  else Some (otherRetryDelay cfg * 2 ^ (attemptNumber - 1)).

(** The [else] branch of the overload case on its own: the entry of the
    schedule for an attempt. *)
Definition scheduled (cfg : RetryConfig) (attemptNumber : Z) : option Z :=
  index (overloadBackoffDelays cfg)
        (Z.min (attemptNumber - 1)
               (Z.of_nat (List.length (overloadBackoffDelays cfg)) - 1)).

(** [Math.ceil(delay / 1000)]; [NaN] for an undefined delay. *)
Definition ceilSeconds (delay : option Z) : option Z :=
  match delay with
  | Some d => Some (- ((- d) / 1000))
  | None => None
  end.

(** [`${x}`] of a number that may be [NaN]. *)
Definition showNumber (x : option Z) : string :=
  match x with Some z => showZ z | None => "NaN" end.

Inductive Event :=
| EvCall (failure : option Error)
    (** [await fn()]: [None] when it returned, the error when it threw *)
| EvStatus (msg : string) (remainingSeconds : option Z) (attemptNumber maxAttempts : Z)
    (** [fullConfig.onRetryStatus(...)] *)
| EvSleep (delayMs : option Z)
    (** [await sleepWithCountdown(delay, ...)]; the countdown calls of the
        callback inside it follow the wall clock and are not listed *).

Definition statusMessage (isOverloaded : bool) (seconds : option Z) : string :=
  (if isOverloaded then "API Overloaded" else "API Error")
    ++ " - Retrying in " ++ showNumber seconds ++ "s".

(** [attemptNumber > maxRetries] *)
Definition exhausted (cfg : RetryConfig) (lastError : Error) (attemptNumber : Z) : bool :=
  attemptNumber >? maxRetriesFor cfg lastError.

(** What the [catch] block does after [attemptNumber++] when it does not
    throw: announce the retry, then sleep. *)
Definition retryEvents (cfg : RetryConfig) (lastError : Error) (attemptNumber : Z)
  : list Event :=
  let delay := chooseDelay cfg lastError attemptNumber in
  let delaySeconds := ceilSeconds delay in
  ((if onRetryStatus cfg
    then [EvStatus (statusMessage (isOverloadedError lastError) delaySeconds)
                   delaySeconds attemptNumber (maxRetriesFor cfg lastError)]
    else [])
   ++ [EvSleep delay])%list.

(** *** The loop *)

Definition Result (S T : Type) : Type := (Outcome T * S * list Event)%type.

Definition addEvents {S T} (evs : list Event) (r : Result S T) : Result S T :=
  match r with (o, s, tr) => (o, s, (evs ++ tr)%list) end.

(** [while (true) { try { ... } catch { ... } }] with [fuel] iterations at
    most; [None] when they are used up.  [fn] is a procedure on a world [S]:
    each call gives an outcome and the next world. *)
Fixpoint retryLoop {S T} (fuel : nat) (cfg : RetryConfig)
  (fn : S -> Outcome T * S) (s : S) (attemptNumber : Z) : option (Result S T) :=
  match fuel with
  | O => None
  | Datatypes.S fuel' =>
      match fn s with
      | (Return result, s') =>
          Some (Return result, s',
                EvCall None ::
                (if onRetryStatus cfg && (attemptNumber >? 0)
                 then [EvStatus "" (Some 0) 0 0] else []))
      | (Throw lastError, s') =>
          let attemptNumber := attemptNumber + 1 in
          if exhausted cfg lastError attemptNumber
          then Some (Throw lastError, s', [EvCall (Some lastError)])
          else
            match retryLoop fuel' cfg fn s' attemptNumber with
            | Some r =>
                Some (addEvents
                        (EvCall (Some lastError)
                           :: retryEvents cfg lastError attemptNumber) r)
            | None => None
            end
      end
  end.

(** Iterations that always suffice: the counter passes both caps. *)
Definition enoughFuel (cfg : RetryConfig) : nat :=
  Datatypes.S (Z.to_nat (Z.max (maxOverloadRetries cfg) (maxOtherRetries cfg))).

Definition retryWithBackoff {S T} (fn : S -> Outcome T * S)
  (config : PartialRetryConfig) (s : S) : option (Result S T) :=
  let cfg := fullConfig config in
  retryLoop (enoughFuel cfg) cfg fn s 0.

(** *** Reading a run *)

(** The world after [k] calls of [fn]. *)
Fixpoint worldAfter {S T} (fn : S -> Outcome T * S) (s : S) (k : nat) : S :=
  match k with
  | O => s
  | Datatypes.S k' => worldAfter fn (snd (fn s)) k'
  end.

(** What call number [k] of [fn] gives, counting from 0. *)
Definition outcomeAt {S T} (fn : S -> Outcome T * S) (s : S) (k : nat)
  : Outcome T :=
  fst (fn (worldAfter fn s k)).

Definition isFailedCall (ev : Event) : bool :=
  match ev with EvCall (Some _) => true | _ => false end.

Definition isSleep (ev : Event) : bool :=
  match ev with EvSleep _ => true | _ => false end.

(** Invocations of [fn] that threw. *)
Definition failedAttempts (tr : list Event) : nat :=
  List.length (filter isFailedCall tr).

(** Retries: each one starts with a sleep. *)
Definition retries (tr : list Event) : nat :=
  List.length (filter isSleep tr).

End Retry.

(* ================================================================== *)
(** ** lib/getChatCompletion/anthropic/index.ts: the request *)
(* ================================================================== *)

Module Anthropic.
Import JsString JsArray Retry.

(** One entry of the conversation. *)
Record Message := mkMessage { role : string; content : string }.

(** The object [buildRequestBody] returns; [system] is [None] for
    [undefined]. *)
Record RequestBody := mkRequestBody {
  model : string;
  messages : list Message;
  system : option string;
  max_tokens : Z
}.

(** [messages[messages.length - 1]] *)
Definition lastOf (messages : list Message) : option Message :=
  index messages (Z.of_nat (List.length messages) - 1).

(** [buildRequestBody(messages, lastMessageIsSystem)].  [anthropicModel]
    comes from the adapter's configuration.  Reading [.content] of
    [undefined] throws. *)
Definition buildRequestBody (anthropicModel : string)
  (messages : list Message) (lastMessageIsSystem : bool) : Outcome RequestBody :=
  if lastMessageIsSystem then
    match lastOf messages with
    | Some m =>
        Return (mkRequestBody anthropicModel (sliceButLast messages)
                              (Some (content m)) 500)
    | None =>
        Throw (mkError TypeError
                 "Cannot read properties of undefined (reading 'content')")
    end
  else Return (mkRequestBody anthropicModel messages None 500).

(** [messages[messages.length - 1]?.role === 'system'] *)
Definition lastMessageIsSystem (messages : list Message) : bool :=
  match lastOf messages with
  | Some m => String.eqb (role m) "system"
  | None => false
  end.

(** The request body [getChatCompletion] sends for a conversation. *)
Definition requestBodyFor (anthropicModel : string) (messages : list Message)
  : Outcome RequestBody :=
  buildRequestBody anthropicModel messages (lastMessageIsSystem messages).

(** A fetch [Response]: its status, the text of its body, and what
    [response.json()] gives, reduced to the [text] fields of
    [data.content]. *)
Record Response := mkResponse {
  status : Z;
  bodyText : string;
  json : Outcome (list string)
}.

(** [response.ok]: the status is in the range 200 .. 299. *)
Definition ok (response : Response) : bool :=
  (200 <=? status response) && (status response <=? 299).

(** [handleApiResponse(response)]; [checkRateLimitHeaders] only writes log
    lines. *)
Definition handleApiResponse (response : Response) : Outcome string :=
  if negb (ok response) || (status response >=? 400) then
    let errorText := bodyText response in
    Throw (mkError PlainError
             ("HTTP error calling API: got status " ++ showZ (status response)
              ++ ". Response: " ++ errorText))
  else
    match json response with
    | Return (text :: _) => Return text
    | Return [] =>
        Throw (mkError TypeError
                 "Cannot read properties of undefined (reading 'text')")
    | Throw e => Throw e
    end.

Definition isTypeError (e : Error) : bool :=
  match kind e with TypeError => true | _ => false end.

(** The function handed to [retryWithBackoff]: one API call.  [fetch] is the
    network: it answers a request in a world [S] with a response or a
    thrown error. *)
Definition apiCall {S} (fetch : RequestBody -> S -> Outcome Response * S)
  (anthropicModel : string) (messages : list Message) (s : S)
  : Outcome string * S :=
  let tried :=
    match requestBodyFor anthropicModel messages with
    | Return body =>
        match fetch body s with
        | (Return response, s') => (handleApiResponse response, s')
        | (Throw e, s') => (Throw e, s')
        end
    | Throw e => (Throw e, s)
    end in
  match tried with
  | (Throw error, s') =>
      if isTypeError error && includes "Failed to fetch" (message error)
      then (Throw (mkError PlainError
                     "Failed to connect to Anthropic API. Please check your internet connection and API key."),
            s')
      else (Throw error, s')
  | (Return text, s') => (Return text, s')
  end.

(** The work [getChatCompletion] runs once the rate limiter admits it;
    [retryStatusCallback] tells whether the global callback is set. *)
Definition getChatCompletion {S} (fetch : RequestBody -> S -> Outcome Response * S)
  (anthropicModel : string) (retryStatusCallback : bool)
  (messages : list Message) (s : S) : option (Result S string) :=
  retryWithBackoff (apiCall fetch anthropicModel messages)
    (mkPartial None None None None (Some retryStatusCallback)) s.

End Anthropic.

(* ================================================================== *)
(** ** lib/getChatCompletion/anthropic/index.ts: the rate limiter *)
(* ================================================================== *)

Module Governor.
Import JsArray.

Definition TaskId := nat.

(** Modelled from the spec: the admission gate that [pLimit] of the package
    p-limit builds, whose code is not part of the repository.  A gate has
    the limit it was built with, the tasks that hold a slot and the tasks
    that wait, first come first served. *)
Record Gate := mkGate {
  concurrency : Z;
  active : list TaskId;
  pending : list TaskId
}.

(** Modelled from the spec: [pLimit(concurrency)] gives a fresh gate, and
    refuses a limit below 1. *)
Definition pLimit (c : Z) : Outcome Gate :=
  if 1 <=? c then Return (mkGate c [] [])
  else Throw (mkError TypeError
                "Expected `concurrency` to be a number from 1 and up").

(** Modelled from the spec: calling the gate with a task gives it a slot
    when one is free and queues it otherwise. *)
Definition enqueue (t : TaskId) (g : Gate) : Gate :=
  if Z.of_nat (List.length (active g)) <? concurrency g
  then mkGate (concurrency g) (active g ++ [t]) (pending g)
  else mkGate (concurrency g) (active g) (pending g ++ [t]).

Fixpoint removeFirst (t : TaskId) (l : list TaskId) : list TaskId :=
  match l with
  | [] => []
  | x :: r => if Nat.eqb t x then r else x :: removeFirst t r
  end.

(** Modelled from the spec: a task that ends gives its slot back, and the
    first waiting task gets it. *)
Definition release (t : TaskId) (g : Gate) : Gate :=
  if existsb (Nat.eqb t) (active g) then
    match pending g with
    | [] => mkGate (concurrency g) (removeFirst t (active g)) []
    | next :: rest =>
        mkGate (concurrency g) (removeFirst t (active g) ++ [next]) rest
    end
  else g.

(** The module state of the adapter and the setting it reads.  Every gate
    ever built is kept in [gates]: a replaced gate lives on with the tasks
    that were handed to it.  [globalRateLimit] is the position of the
    current gate, [configured] is what [getCurrentConcurrency()] returns. *)
Record World := mkWorld {
  configured : Z;
  gates : list Gate;
  globalRateLimit : nat;
  lastConcurrency : Z
}.

(** Loading the module: [pLimit(getCurrentConcurrency())] and
    [lastConcurrency = getCurrentConcurrency()]. *)
Definition load (c : Z) : Outcome World :=
  match pLimit c with
  | Return g => Return (mkWorld c [g] 0 c)
  | Throw e => Throw e
  end.

(** [updateRateLimit()]: the gate to use.  When [pLimit] throws, the
    assignments after it do not happen. *)
Definition updateRateLimit (w : World) : Outcome nat * World :=
  let currentConcurrency := configured w in
  if negb (currentConcurrency =? lastConcurrency w) then
    match pLimit currentConcurrency with
    | Return g =>
        let w' := mkWorld (configured w) (gates w ++ [g])
                          (List.length (gates w)) currentConcurrency in
        (Return (globalRateLimit w'), w')
    | Throw e => (Throw e, w)
    end
  else (Return (globalRateLimit w), w).

(** What happens to the limiter, one event at a time. *)
Inductive Action :=
| SetConcurrency (c : Z)   (** the setting changes *)
| Dispatch (t : TaskId)    (** [getChatCompletion] is called: task [t] *)
| Finish (t : TaskId)      (** the promise of task [t] settles *).

(** [updateRateLimit()(task)] *)
Definition dispatch (t : TaskId) (w : World) : World :=
  match updateRateLimit w with
  | (Return i, w') =>
      match nth_error (gates w') i with
      | Some g =>
          mkWorld (configured w') (setAt (gates w') i (enqueue t g))
                  (globalRateLimit w') (lastConcurrency w')
      | None => w'
      end
  | (Throw _, w') => w'
  end.

Definition step (w : World) (a : Action) : World :=
  match a with
  | SetConcurrency c =>
      mkWorld c (gates w) (globalRateLimit w) (lastConcurrency w)
  | Dispatch t => dispatch t w
  | Finish t =>
      mkWorld (configured w) (map (release t) (gates w))
              (globalRateLimit w) (lastConcurrency w)
  end.

Definition run (w : World) (actions : list Action) : World :=
  fold_left step actions w.

(** Dispatches that hold a slot, over all gates. *)
Definition holders (w : World) : nat :=
  list_sum (map (fun g => List.length (active g)) (gates w)).

(** Every gate admits at most its limit. *)
Definition gateBounded (g : Gate) : Prop :=
  Z.of_nat (List.length (active g)) <= concurrency g.

(** The gate in use was built with the cached limit. *)
Definition currentGateMatches (w : World) : Prop :=
  exists g, nth_error (gates w) (globalRateLimit w) = Some g
            /\ concurrency g = lastConcurrency w.

(** What holds of the limiter at every moment. *)
Definition Inv (w : World) : Prop :=
  Forall gateBounded (gates w) /\ currentGateMatches w.

Definition isSetConcurrency (a : Action) : bool :=
  match a with SetConcurrency _ => true | _ => false end.

(** The setting does not change during these events. *)
Definition settingUntouched (actions : list Action) : bool :=
  forallb (fun a => negb (isSetConcurrency a)) actions.

(** One gate, built with limit [c], and the setting and the cache are [c]. *)
Definition SingleGate (c : Z) (w : World) : Prop :=
  exists g, gates w = [g] /\ gateBounded g /\ concurrency g = c
            /\ configured w = c /\ lastConcurrency w = c
            /\ globalRateLimit w = 0%nat.

End Governor.

(* ================================================================== *)
(** ** Reading the trace of a run *)
(* ================================================================== *)

Module RetryTrace.
Import Retry.

Definition isCall (ev : Event) : bool :=
  match ev with EvCall _ => true | _ => false end.

(** Invocations of [fn]. *)
Definition calls (tr : list Event) : nat :=
  List.length (filter isCall tr).

(** The delays slept, in order. *)
Definition sleeps (tr : list Event) : list (option Z) :=
  flat_map (fun ev => match ev with EvSleep d => [d] | _ => [] end) tr.

(** A character that is not the letter r in either case. *)
Definition notR (c : ascii) : bool :=
  negb (Ascii.eqb (JsString.lowerChar c) "r").

(** A delay that the code computes exactly and after which
    [sleepWithCountdown] returns: [undefined], or at most 2^53 ms.  A
    retry-after hint of so many seconds that the product with 1000 passes
    2^53 is rounded by the code, and from about 306 digits on it is
    [Infinity] and the sleep never ends. *)
Definition safeDelay (delay : option Z) : Prop :=
  match delay with
  | Some d => d <= 2 ^ 53
  | None => True
  end.

(** Every sleep of the run of [fn] from [s] ends: the delay chosen at each
    failure that is retried is safe. *)
Definition sleepsEnd {S T} (cfg : RetryConfig) (fn : S -> Outcome T * S) (s : S)
  : Prop :=
  forall (k : nat) (e : Error),
    outcomeAt fn s k = Throw e ->
    Z.of_nat k + 1
    <= (if isOverloadedError e
        then maxOverloadRetries cfg else maxOtherRetries cfg) ->
    safeDelay (chooseDelay cfg e (Z.of_nat k + 1)).

End RetryTrace.

(* ================================================================== *)
(** ** Constants of the Anthropic adapter *)
(* ================================================================== *)

Module AnthropicConstants.

(** The error [getChatCompletion] throws in place of the browser's
    "Failed to fetch". *)
Definition connectivityError : Error :=
  mkError PlainError
    "Failed to connect to Anthropic API. Please check your internet connection and API key.".

(** The error [handleApiResponse] throws for a response. *)
Definition httpError (status : Z) (body : string) : Error :=
  mkError PlainError
    ("HTTP error calling API: got status " ++ JsString.showZ status
     ++ ". Response: " ++ body)%string.

(** The character of a decimal digit. *)
Definition digitChar (d : Z) : ascii := ascii_of_N (Z.to_N (48 + d)).

(** The decimal numeral of an integer from 0 to 999, the range of the
    status codes, written out digit by digit. *)
Definition statusNumeral (n : Z) : string :=
  if n <? 10 then String (digitChar n) EmptyString
  else if n <? 100 then
    String (digitChar (n / 10)) (String (digitChar (n mod 10)) EmptyString)
  else
    String (digitChar (n / 100))
      (String (digitChar (n / 10 mod 10))
         (String (digitChar (n mod 10)) EmptyString)).

End AnthropicConstants.

(* ================================================================== *)
(** ** String.prototype.replace and trim *)
(* ================================================================== *)

Module JsReplace.
Import JsString.

(** [s.slice(n)] *)
Fixpoint dropChars (n : nat) (s : string) : string :=
  match n, s with
  | O, _ => s
  | Datatypes.S _, EmptyString => EmptyString
  | Datatypes.S n', String _ r => dropChars n' r
  end.

(** [s] around the first occurrence of [pat]: what is before
    [s.indexOf(pat)] and what follows the occurrence; [None] when
    [indexOf] gives -1. *)
Fixpoint splitAtFirst (pat s : string) : option (string * string) :=
  if startsWith pat s then Some (EmptyString, dropChars (String.length pat) s)
  else
    match s with
    | EmptyString => None
    | String c r =>
        match splitAtFirst pat r with
        | Some (a, b) => Some (String c a, b)
        | None => None
        end
    end.

(** The replacement text for one match of a pattern without capture groups
    (GetSubstitution): in the replacement string, [$$] is a dollar sign,
    [$&] is the matched text, [$`] is what precedes the match and [$'] is
    what follows it; any other dollar sign stands for itself. *)
Fixpoint getSubstitution (matched before after template : string) : string :=
  match template with
  | EmptyString => EmptyString
  | String a t =>
      if Ascii.eqb a "$" then
        match t with
        | String c rest =>
            if Ascii.eqb c "$" then
              String "$" (getSubstitution matched before after rest)
            else if Ascii.eqb c "&" then
              matched ++ getSubstitution matched before after rest
            else if Ascii.eqb c "`" then
              before ++ getSubstitution matched before after rest
            else if Ascii.eqb c "'" then
              after ++ getSubstitution matched before after rest
            else String a (getSubstitution matched before after t)
        | EmptyString => String a EmptyString
        end
      else String a (getSubstitution matched before after t)
  end.

(** [s.replace(pat, replacement)] for a string [pat]: the first occurrence
    only. *)
Definition replaceString (pat replacement s : string) : string :=
  match splitAtFirst pat s with
  | Some (before, after) =>
      before ++ getSubstitution pat before after replacement ++ after
  | None => s
  end.

(** [s.replace(/pat/g, replacement)] for a pattern that matches the text
    [pat] and nothing else, [pat] not empty: every occurrence, from the
    left, occurrences not overlapping.  [before] is the part of the string
    already passed and [skip] counts the characters of a match still to
    pass. *)
Fixpoint replaceAllFrom (pat replacement before s : string) (skip : nat) : string :=
  match s with
  | EmptyString => EmptyString
  | String c r =>
      match skip with
      | Datatypes.S k =>
          replaceAllFrom pat replacement (before ++ String c EmptyString) r k
      | O =>
          if startsWith pat s then
            getSubstitution pat before (dropChars (String.length pat) s) replacement
            ++ replaceAllFrom pat replacement (before ++ String c EmptyString) r
                 (String.length pat - 1)
          else
            String c
              (replaceAllFrom pat replacement (before ++ String c EmptyString) r 0)
      end
  end.

Definition replaceAll (pat replacement s : string) : string :=
  replaceAllFrom pat replacement EmptyString s 0.

(** White space and line terminators, on the code units of the model. *)
Definition isTrimmed (c : ascii) : bool :=
  let n := N_of_ascii c in
  (((9 <=? n) && (n <=? 13)) || (n =? 32) || (n =? 160))%N.

Fixpoint trimStart (s : string) : string :=
  match s with
  | EmptyString => EmptyString
  | String c r => if isTrimmed c then trimStart r else s
  end.

Fixpoint trimEnd (s : string) : string :=
  match s with
  | EmptyString => EmptyString
  | String c r =>
      match trimEnd r with
      | EmptyString => if isTrimmed c then EmptyString else String c EmptyString
      | String d r' => String c (String d r')
      end
  end.

(** [s.trim()] *)
Definition trim (s : string) : string := trimEnd (trimStart s).

(** No character of [s] is [c]. *)
Fixpoint lacks (c : ascii) (s : string) : bool :=
  match s with
  | EmptyString => true
  | String x r => negb (Ascii.eqb x c) && lacks c r
  end.

(** Neither a brace that opens a placeholder nor a dollar sign. *)
Definition plain (s : string) : bool := lacks "{" s && lacks "$" s.

End JsReplace.

(* ================================================================== *)
(** ** lib/prompts/promptTemplates.ts and the prompt builder *)
(* ================================================================== *)

Module Prompts.
Import JsString JsReplace.

Record PromptTemplate := mkPromptTemplate {
  id : string;
  name : string;
  description : string;
  systemMessage : string;
  rankingKeyword : string;
  additionalInstructions : option string
}.

Record PromptVariables := mkPromptVariables {
  criteriaString : string;
  v_rankingKeyword : option string;
  v_additionalInstructions : option string;
  v_notesInstructions : option string
}.

Record PromptConfig := mkPromptConfig {
  template : PromptTemplate;
  variables : PromptVariables
}.

(** The line feed between the lines of a template literal. *)
Definition lf : string := String (ascii_of_nat 10) EmptyString.

(** The [systemMessage] of the single-axis template, line by line. *)
Definition SPAR_SYSTEM_MESSAGE : string :=
  String.concat lf [
    "Evaluate the application above, based on the following rubric: {criteriaString}";
    "";
    "You should ignore general statements or facts about the world, and focus on what the applicant themselves has achieved. You do not need to structure your assessment similar to the answers the user has given.";
    "";
    "=== MANDATORY OUTPUT FORMAT ===";
    "Your response MUST end with this EXACT format on the last line:";
    "{rankingKeyword} = [integer from 1-5]";
    "";
    "This is REQUIRED. Do not add any text after this line.";
    "================================";
    "";
    "RATING CONSTRAINTS:";
    "- Your rating MUST be an integer (whole number only)";
    "- Your rating MUST be between 1 and 5 (inclusive)";
    "- DO NOT use ratings above 5 or below 1";
    "- If the rubric mentions different scale values, convert them to the 1-5 scale";
    "";
    "Now, provide your evaluation:";
    "";
    "1. First explain your reasoning thinking step by step.{notesInstructions}";
    "";
    "2. MANDATORY FINAL LINE: End with exactly: {rankingKeyword} = [your integer score from 1-5]";
    "   (Do not add anything after this line){additionalInstructions}"
  ].

Definition SPAR_SINGLE_AXIS_TEMPLATE : PromptTemplate := {|
  id := "spar_single";
  name := "General Promise Evaluation";
  description := "Single-axis evaluation using SPAR General Promise criteria";
  systemMessage := SPAR_SYSTEM_MESSAGE;
  rankingKeyword := "FINAL_RANKING";
  additionalInstructions := Some EmptyString
|}.

Definition ACADEMIC_TEMPLATE : PromptTemplate := SPAR_SINGLE_AXIS_TEMPLATE.

Definition AVAILABLE_TEMPLATES : list PromptTemplate :=
  [SPAR_SINGLE_AXIS_TEMPLATE].

(** [AVAILABLE_TEMPLATES.find(...) || SPAR_SINGLE_AXIS_TEMPLATE] *)
Definition getTemplate (templateId : string) : PromptTemplate :=
  match find (fun t => String.eqb (id t) templateId) AVAILABLE_TEMPLATES with
  | Some t => t
  | None => SPAR_SINGLE_AXIS_TEMPLATE
  end.

(** [a || b] for an optional string [a]: [undefined] and the empty string
    are false. *)
Definition orElse (a : option string) (b : string) : string :=
  match a with
  | Some EmptyString => b
  | Some s => s
  | None => b
  end.

(** [a?.trim()] when it is neither [undefined] nor empty. *)
Definition trimmedIfAny (a : option string) : option string :=
  match a with
  | Some s =>
      match trim s with
      | EmptyString => None
      | String c r => Some (String c r)
      end
  | None => None
  end.

(** The template literal [notesSection]. *)
Definition notesSection (notes rankingKw : string) : string :=
  lf ++ lf
  ++ "   Then, provide structured evaluation notes between [EVALUATION_NOTES] and [END_EVALUATION_NOTES] markers summarizing:"
  ++ lf ++ "   " ++ notes ++ lf ++ lf
  ++ "   NOTE: These notes are ADDITIONAL analysis. You still MUST end with the "
  ++ rankingKw ++ " line.".

(** The value of [systemMessage] at the end of [buildPrompt]. *)
Definition builtSystemMessage (config : PromptConfig) : string :=
  let template := template config in
  let variables := variables config in
  let systemMessage :=
    replaceString "{rankingKeyword}"
      (orElse (v_rankingKeyword variables) (rankingKeyword template))
      (replaceString "{criteriaString}" (criteriaString variables)
         (systemMessage template)) in
  let systemMessage :=
    match trimmedIfAny (v_notesInstructions variables) with
    | Some notes =>
        let rankingKw :=
          orElse (v_rankingKeyword variables) (rankingKeyword template) in
        replaceString "{notesInstructions}" (notesSection notes rankingKw)
          systemMessage
    | None => replaceString "{notesInstructions}" EmptyString systemMessage
    end in
  match trimmedIfAny (v_additionalInstructions variables) with
  | Some additional =>
      replaceString "{additionalInstructions}" (lf ++ lf ++ additional)
        systemMessage
  | None => replaceString "{additionalInstructions}" EmptyString systemMessage
  end.

(** [buildPrompt(applicantData, config)] *)
Definition buildPrompt (applicantData : string) (config : PromptConfig)
  : list Anthropic.Message :=
  [ Anthropic.mkMessage "user" applicantData;
    Anthropic.mkMessage "system" (builtSystemMessage config) ].

(** What follows the first occurrence of [pat] in [s]. *)
Definition tailAfter (pat s : string) : string :=
  match splitAtFirst pat s with
  | Some (_, after) => after
  | None => EmptyString
  end.

(** What precedes the first occurrence of [pat] in [s]. *)
Definition headBefore (pat s : string) : string :=
  match splitAtFirst pat s with
  | Some (before, _) => before
  | None => s
  end.

(** The text of the single-axis template between its placeholders. *)
Definition sparIntro : string :=
  headBefore "{criteriaString}" SPAR_SYSTEM_MESSAGE.
Definition sparAfterCriteria : string :=
  tailAfter "{criteriaString}" SPAR_SYSTEM_MESSAGE.
Definition sparFormat : string :=
  headBefore "{rankingKeyword}" sparAfterCriteria.
Definition sparAfterKeyword : string :=
  tailAfter "{rankingKeyword}" sparAfterCriteria.
Definition sparConstraints : string :=
  headBefore "{notesInstructions}" sparAfterKeyword.
Definition sparAfterNotes : string :=
  tailAfter "{notesInstructions}" sparAfterKeyword.
Definition sparFinalLine : string :=
  headBefore "{additionalInstructions}" sparAfterNotes.

(** [getRankingKeyword(config)] *)
Definition getRankingKeyword (config : PromptConfig) : string :=
  orElse (v_rankingKeyword (variables config)) (rankingKeyword (template config)).

End Prompts.

(* ================================================================== *)
(** ** lib/models/config.ts and the provider/model formatter *)
(* ================================================================== *)

Module Models.
Import JsString JsArray JsReplace.

(** Text outside U+0000 .. U+00FF (the emoji and one dash) is written as
    its UTF-8 bytes.  The functions of this module compare whole strings
    and search for patterns of ASCII characters, so they do not look
    inside such text. *)
Definition utf8 (bytes : list nat) : string :=
  fold_right (fun b s => String (ascii_of_nat b) s) EmptyString bytes.

Inductive ModelProvider := openai | anthropic.

(** The string a provider is in the source. *)
Definition providerId (provider : ModelProvider) : string :=
  match provider with
  | openai => "openai"
  | anthropic => "anthropic"
  end.

Record ModelOption := mkModelOption {
  label : string;
  value : string;
  description : string;
  emoji : string;
  isAvailable : bool
}.

Definition OPENAI_MODELS : list ModelOption := [
  mkModelOption "GPT-4.1" "gpt-4.1"
    "Successor to GPT-4 Turbo, highly capable flagship model"
    (utf8 [240; 159; 154; 128]%nat) true;
  mkModelOption "GPT-5" "gpt-5"
    ("OpenAI GPT-5 " ++ utf8 [226; 128; 148]%nat ++ " next-generation flagship model")
    (utf8 [226; 154; 161]%nat) true;
  mkModelOption "GPT-5 mini" "gpt-5-mini"
    "Compact and fast GPT-5 variant for cost-sensitive use cases"
    (utf8 [240; 159; 159; 162]%nat) true
]%string.

Definition DEFAULT_OPENAI_MODEL : string := "gpt-5-mini".

Definition ANTHROPIC_MODELS : list ModelOption := [
  mkModelOption "Claude Opus 4" "claude-opus-4-20250514"
    "Latest most capable model from Anthropic"
    (utf8 [226; 156; 168]%nat) true;
  mkModelOption "Claude Sonnet 4" "claude-sonnet-4-20250514"
    "Latest balanced model from Anthropic"
    (utf8 [240; 159; 143; 134]%nat) true;
  mkModelOption "Claude 3.5 Haiku" "claude-3-5-haiku-20241022"
    "Latest fast and cost-effective model from Anthropic"
    (utf8 [240; 159; 146; 168]%nat) true
].

(** [ANTHROPIC_MODELS[2].value]; the list has an entry at position 2. *)
Definition DEFAULT_ANTHROPIC_MODEL : string :=
  match index ANTHROPIC_MODELS 2%Z with
  | Some m => value m
  | None => EmptyString
  end.

Record ProviderEntry := mkProviderEntry {
  p_id : string;
  p_name : string;
  p_emoji : string;
  p_models : list ModelOption;
  p_defaultModel : string
}.

Definition MODEL_PROVIDERS : list ProviderEntry := [
  mkProviderEntry "openai" "OpenAI" (utf8 [240; 159; 164; 150]%nat)
    OPENAI_MODELS DEFAULT_OPENAI_MODEL;
  mkProviderEntry "anthropic" "Anthropic Claude" (utf8 [240; 159; 167; 160]%nat)
    ANTHROPIC_MODELS DEFAULT_ANTHROPIC_MODEL
].

(** [PROVIDER_ICONS], a record keyed by strings. *)
Definition PROVIDER_ICONS : list (string * string) := [
  ("openai"%string, utf8 [240; 159; 164; 150]%nat);
  ("anthropic"%string, utf8 [240; 159; 167; 160]%nat)
].

(** [record[key]] *)
Fixpoint lookup (key : string) (record : list (string * string)) : option string :=
  match record with
  | [] => None
  | (k, v) :: rest => if String.eqb k key then Some v else lookup key rest
  end.

(** [formatModelName(modelId)] *)
Definition formatModelName (modelId : string) : string :=
  match find (fun model => String.eqb (value model) modelId) OPENAI_MODELS with
  | Some openAiModel => label openAiModel
  | None =>
      match find (fun model => String.eqb (value model) modelId) ANTHROPIC_MODELS with
      | Some anthropicModel => label anthropicModel
      | None => modelId
      end
  end.

(** [formatProviderModel(provider, modelId, template)]; [None] for an
    omitted [template]. *)
Definition formatProviderModel (provider : ModelProvider) (modelId : string)
  (template : option string) : string :=
  let template :=
    match template with Some t => t | None => "{provider} {model}"%string end in
  let providerName :=
    match provider with
    | openai => "OpenAI"%string
    | anthropic => "Anthropic Claude"%string
    end in
  let modelName := formatModelName modelId in
  let providerEmoji :=
    match lookup (providerId provider) PROVIDER_ICONS with
    | Some (String c r) => String c r
    | _ => EmptyString
    end in
  replaceAll "{provider_emoji}" providerEmoji
    (replaceAll "{model}" modelName
       (replaceAll "{provider}" providerName template)).

(** The models of both providers. *)
Definition allModels : list ModelOption := (OPENAI_MODELS ++ ANTHROPIC_MODELS)%list.

End Models.

(* ================================================================== *)
(** ** Number.parseInt and the rate-limit headers *)
(* ================================================================== *)

Module Headers.
Import JsString JsReplace Models.

(** The value of a character as a digit of a radix up to 16. *)
Definition digitOf (c : ascii) : option Z :=
  let n := Z.of_N (N_of_ascii c) in
  if (48 <=? n) && (n <=? 57) then Some (n - 48)
  else if (97 <=? n) && (n <=? 102) then Some (n - 87)
  else if (65 <=? n) && (n <=? 70) then Some (n - 55)
  else None.

Definition digitIn (radix : Z) (c : ascii) : option Z :=
  match digitOf c with
  | Some v => if v <? radix then Some v else None
  | None => None
  end.

(** The value of the longest run of digits at the head of [s]. *)
Fixpoint parseRun (radix acc : Z) (s : string) : Z :=
  match s with
  | EmptyString => acc
  | String c r =>
      match digitIn radix c with
      | Some v => parseRun radix (acc * radix + v) r
      | None => acc
      end
  end.

(** [Number.parseInt(input)] without a radix: leading white space is
    skipped, a sign is read, "0x" or "0X" selects radix 16, and the digits
    that follow are read; [None] is [NaN], when no digit follows. *)
Definition parseInt (input : string) : option Z :=
  let s := trimStart input in
  let negative := startsWith "-" s in
  let s := if startsWith "-" s || startsWith "+" s then dropChars 1 s else s in
  let hex := startsWith "0x" s || startsWith "0X" s in
  let radix := if hex then 16 else 10 in
  let s := if hex then dropChars 2 s else s in
  match s with
  | EmptyString => None
  | String c _ =>
      match digitIn radix c with
      | Some _ =>
          let number := parseRun radix 0 s in
          Some (if negative then - number else number)
      | None => None
      end
  end.

(** What [response.headers.get] gives for the three headers
    [checkRateLimitHeaders] reads; [None] is [null]. *)
Record RateLimitHeaders := mkRateLimitHeaders {
  requestsRemaining : option string;
  tokensRemaining : option string;
  requestsReset : option string
}.

(** [`${x}`] of a string or [null]. *)
Definition showNullable (x : option string) : string :=
  match x with Some s => s | None => "null"%string end.

(** [header && Number.parseInt(header) < threshold] *)
Definition below (threshold : Z) (header : option string) : bool :=
  match header with
  | Some (String c r) =>
      match parseInt (String c r) with
      | Some n => n <? threshold
      | None => false
      end
  | _ => false
  end.

Definition requestsWarning (remaining : string) (resetTime : option string) : string :=
  (utf8 [240; 159; 154; 168]%nat ++ " Anthropic API: Only " ++ remaining
   ++ " requests remaining until " ++ showNullable resetTime)%string.

Definition tokensWarning (remaining : string) (resetTime : option string) : string :=
  (utf8 [240; 159; 154; 168]%nat ++ " Anthropic API: Only " ++ remaining
   ++ " tokens remaining until " ++ showNullable resetTime)%string.

(** [checkRateLimitHeaders(response)]: the lines it hands to
    [Logger.warn], in order. *)
Definition checkRateLimitHeaders (headers : RateLimitHeaders) : list string :=
  ((if below 10 (requestsRemaining headers)
    then [requestsWarning (showNullable (requestsRemaining headers))
                          (requestsReset headers)]
    else [])
   ++
   (if below 1000 (tokensRemaining headers)
    then [tokensWarning (showNullable (tokensRemaining headers))
                        (requestsReset headers)]
    else []))%list.

End Headers.

(* ================================================================== *)
(** ** Facts about strings *)
(* ================================================================== *)

Module JsStringFacts.
Import JsString.

Lemma append_nil_r (s : string) : s ++ "" = s.
Proof. induction s as [|c s IH]; simpl; [reflexivity | now rewrite IH]. Qed.

Lemma append_assoc (a b c : string) : (a ++ b) ++ c = a ++ (b ++ c).
Proof. induction a as [|x a IH]; simpl; [reflexivity | now rewrite IH]. Qed.

Lemma startsWith_spec (p s : string) :
  startsWith p s = true <-> exists post, s = p ++ post.
Proof.
  revert s. induction p as [|a p IH]; intros s; simpl.
  - split; [intros _; now exists s | reflexivity].
  - destruct s as [|b s].
    + split; [discriminate | intros [post H]; discriminate].
    + rewrite andb_true_iff, Ascii.eqb_eq, IH. split.
      * intros [-> [post ->]]. now exists post.
      * intros [post H]. injection H as -> ->. split; [reflexivity | now exists post].
Qed.

Lemma includes_spec (needle hay : string) :
  includes needle hay = true <-> Substring needle hay.
Proof.
  unfold Substring. induction hay as [|c hay IH]; simpl.
  - rewrite orb_false_r, startsWith_spec. split.
    + intros [post H]. now exists "", post.
    + intros [pre [post H]]. destruct pre; [now exists post | discriminate].
  - rewrite orb_true_iff, startsWith_spec, IH. split.
    + intros [[post H] | [pre [post H]]].
      * now exists "", post.
      * exists (String c pre), post. simpl. now rewrite H.
    + intros [pre [post H]]. destruct pre as [|x pre]; simpl in H.
      * left. now exists post.
      * right. injection H as _ H. now exists pre, post.
Qed.

Lemma toLowerCase_app (a b : string) :
  toLowerCase (a ++ b) = toLowerCase a ++ toLowerCase b.
Proof. induction a as [|x a IH]; simpl; [reflexivity | now rewrite IH]. Qed.

Lemma Substring_app_l (n a b : string) : Substring n a -> Substring n (a ++ b).
Proof.
  intros [pre [post ->]]. exists pre, (post ++ b).
  now rewrite !append_assoc.
Qed.

Lemma Substring_app_r (n a b : string) : Substring n b -> Substring n (a ++ b).
Proof.
  intros [pre [post ->]]. exists (a ++ pre), post.
  now rewrite !append_assoc.
Qed.

Lemma Substring_refl (n : string) : Substring n n.
Proof. exists "", "". simpl. now rewrite append_nil_r. Qed.

Lemma Substring_mid (a n b : string) : Substring n (a ++ n ++ b).
Proof. now exists a, b. Qed.

End JsStringFacts.

(* ================================================================== *)
(** ** Classification of errors *)
(* ================================================================== *)

Module ClassifyFacts.
Import JsString JsStringFacts Retry.

(** [isOverloadedError] is the disjunction over [overloadMarkers]. *)
Lemma isOverloadedError_existsb (e : Error) :
  isOverloadedError e
  = existsb (fun m => includes m (toLowerCase (message e))) overloadMarkers.
Proof.
  unfold isOverloadedError, overloadMarkers. simpl.
  now rewrite orb_false_r, !orb_assoc.
Qed.

(** A marker in the lower-cased message makes the error overload-class. *)
Lemma marker_makes_overloaded (e : Error) :
  (exists m, In m overloadMarkers /\ Substring m (toLowerCase (message e))) ->
  isOverloadedError e = true.
Proof.
  intros [m [Hin Hsub]]. rewrite isOverloadedError_existsb, existsb_exists.
  exists m. split; [exact Hin | now apply includes_spec].
Qed.

(** C2.  An error is overload-class exactly when its message, lower-cased,
    contains one of "status 429", "status 503", "status 529", "overloaded",
    "overload_error", "rate limit", "service unavailable"; when it contains
    none of them, [isOverloadedError] answers false. *)
Theorem isOverloadedError_iff_marker (e : Error) :
  (isOverloadedError e = true <->
   exists m, In m ["status 429"; "status 503"; "status 529"; "overloaded";
                   "overload_error"; "rate limit"; "service unavailable"]
             /\ Substring m (toLowerCase (message e)))
  /\
  ((forall m, In m ["status 429"; "status 503"; "status 529"; "overloaded";
                    "overload_error"; "rate limit"; "service unavailable"]
              -> ~ Substring m (toLowerCase (message e)))
   -> isOverloadedError e = false).
Proof.
  assert (Hiff : isOverloadedError e = true <->
     exists m, In m ["status 429"; "status 503"; "status 529"; "overloaded";
                     "overload_error"; "rate limit"; "service unavailable"]
               /\ Substring m (toLowerCase (message e))).
  { rewrite isOverloadedError_existsb, existsb_exists. split.
    - intros [m [Hin Hinc]]. exists m. split.
      + unfold overloadMarkers in Hin. simpl in *. intuition.
      + now apply includes_spec.
    - intros [m [Hin Hsub]]. exists m. split.
      + unfold overloadMarkers. simpl in *. intuition.
      + now apply includes_spec. }
  split; [exact Hiff |].
  intros Hnone. destruct (isOverloadedError e) eqn:E; [| reflexivity].
  destruct (proj1 Hiff eq_refl) as [m [Hin Hsub]].
  exfalso. exact (Hnone m Hin Hsub).
Qed.

(** A mixed-case rate-limit message is overload-class, through C2. *)
Lemma isOverloadedError_iff_marker_witness :
  isOverloadedError (mkError PlainError "Rate LIMIT exceeded") = true
  /\ isOverloadedError (mkError PlainError "boom") = false.
Proof.
  split.
  - apply (proj1 (isOverloadedError_iff_marker
                    (mkError PlainError "Rate LIMIT exceeded"))).
    exists "rate limit". split.
    + simpl. tauto.
    + exists "", " exceeded". reflexivity.
  - apply (proj2 (isOverloadedError_iff_marker (mkError PlainError "boom"))).
    intros m Hin Hsub. apply includes_spec in Hsub.
    simpl in Hin.
    repeat (destruct Hin as [<- | Hin]; [vm_compute in Hsub; discriminate |]).
    exact Hin.
Defined.

End ClassifyFacts.

(* ================================================================== *)
(** ** The retry-after pattern *)
(* ================================================================== *)

Module RegexFacts.
Import JsString JsStringFacts Retry.

Section Runs.
Variable p : ascii -> bool.

Lemma takeWhile_dropWhile (s : string) :
  (takeWhile p s ++ dropWhile p s)%string = s.
Proof.
  induction s as [|c s IH]; simpl; [reflexivity |].
  destruct (p c); simpl; [now rewrite IH | reflexivity].
Qed.

Lemma allChars_takeWhile (s : string) : allChars p (takeWhile p s) = true.
Proof.
  induction s as [|c s IH]; simpl; [reflexivity |].
  destruct (p c) eqn:E; simpl; [now rewrite E | reflexivity].
Qed.

Lemma headFails_dropWhile (s : string) : headFails p (dropWhile p s) = true.
Proof.
  induction s as [|c s IH]; simpl; [reflexivity |].
  destruct (p c) eqn:E; simpl; [exact IH | now rewrite E].
Qed.

(** A run followed by something that does not continue it is what
    [takeWhile] and [dropWhile] find. *)
Lemma run_unique (a b : string) :
  allChars p a = true -> headFails p b = true ->
  takeWhile p (a ++ b) = a /\ dropWhile p (a ++ b) = b.
Proof.
  intros Ha Hb. induction a as [|c a IH]; simpl in *.
  - destruct b as [|d b]; simpl in *; [now split |].
    apply negb_true_iff in Hb. rewrite Hb. now split.
  - apply andb_true_iff in Ha as [Hc Ha]. rewrite Hc.
    destruct (IH Ha) as [-> ->]. now split.
Qed.

End Runs.

Lemma digit_is_no_gap (c : ascii) : isDigit c = true -> isGap c = false.
Proof.
  destruct c as [[] [] [] [] [] [] [] []]; vm_compute; congruence.
Qed.

Lemma matchLiteralCI_spec (lit s r : string) :
  matchLiteralCI lit s = Some r <->
  exists w, s = (w ++ r)%string /\ toLowerCase w = lit.
Proof.
  revert s. induction lit as [|a lit IH]; intros s; simpl.
  - split.
    + intros [= ->]. now exists "".
    + intros [w [-> Hw]]. destruct w; [reflexivity | discriminate].
  - destruct s as [|b s].
    + split; [discriminate |].
      intros [w [Hs Hw]]. destruct w; discriminate.
    + destruct (Ascii.eqb (lowerChar b) a) eqn:E.
      * apply Ascii.eqb_eq in E. rewrite IH. split.
        -- intros [w [-> Hw]]. exists (String b w). simpl. now rewrite E, Hw.
        -- intros [w [Hs Hw]]. destruct w as [|x w]; [discriminate |].
           simpl in Hs, Hw. injection Hs as <- ->. injection Hw as _ Hw.
           now exists w.
      * apply Ascii.eqb_neq in E. split; [discriminate |].
        intros [w [Hs Hw]]. destruct w as [|x w]; [discriminate |].
        simpl in Hs, Hw. injection Hs as <- ->. injection Hw as Hx _.
        contradiction.
Qed.

(** [matchHere] decides the pattern at the head of the string. *)
Lemma matchHere_spec (s ds : string) :
  matchHere s = Some ds <-> HintHere ds s.
Proof.
  unfold matchHere, HintHere. split.
  - destruct (matchLiteralCI "retry" s) as [[|c r1]|] eqn:E1; try discriminate.
    destruct (isSep c) eqn:Ec; try discriminate.
    destruct (matchLiteralCI "after" r1) as [r2|] eqn:E2; try discriminate.
    destruct (takeWhile isGap r2) as [|g gs] eqn:Eg; try discriminate.
    destruct (takeWhile isDigit (dropWhile isGap r2)) as [|d ds'] eqn:Ed;
      try discriminate.
    intros [= <-].
    apply matchLiteralCI_spec in E1 as [w1 [-> Hw1]].
    apply matchLiteralCI_spec in E2 as [w2 [-> Hw2]].
    exists w1, c, w2, (takeWhile isGap r2),
      (dropWhile isDigit (dropWhile isGap r2)).
    rewrite <- Ed, (takeWhile_dropWhile isDigit), (takeWhile_dropWhile isGap).
    repeat split; try assumption.
    + rewrite Eg. discriminate.
    + apply allChars_takeWhile.
    + rewrite Ed. discriminate.
    + apply allChars_takeWhile.
    + apply headFails_dropWhile.
  - intros (w1 & c & w2 & gap & post & -> & Hw1 & Hc & Hw2 & Hg & Hga & Hd & Hda & Hp).
    assert (E1 : matchLiteralCI "retry"
                   (w1 ++ String c (w2 ++ gap ++ ds ++ post))
                 = Some (String c (w2 ++ gap ++ ds ++ post)%string)).
    { apply matchLiteralCI_spec. now exists w1. }
    rewrite E1, Hc.
    assert (E2 : matchLiteralCI "after" (w2 ++ gap ++ ds ++ post)
                 = Some (gap ++ ds ++ post)%string).
    { apply matchLiteralCI_spec. now exists w2. }
    rewrite E2.
    assert (Hhead : headFails isGap (ds ++ post) = true).
    { destruct ds as [|d ds']; [contradiction |]. simpl in *.
      apply andb_true_iff in Hda as [Hdd _].
      now rewrite (digit_is_no_gap d Hdd). }
    destruct (run_unique isGap gap (ds ++ post) Hga Hhead) as [-> ->].
    destruct gap as [|g gs]; [contradiction |].
    destruct (run_unique isDigit ds post Hda Hp) as [-> _].
    destruct ds; [contradiction | reflexivity].
Qed.

Lemma matchHere_none (s : string) :
  matchHere s = None <-> forall ds, ~ HintHere ds s.
Proof.
  split.
  - intros Hn ds Hh. apply matchHere_spec in Hh. congruence.
  - intros Hall. destruct (matchHere s) as [ds|] eqn:E; [| reflexivity].
    exfalso. apply (Hall ds). now apply matchHere_spec.
Qed.

(** [matchRetryAfter] finds the leftmost match of the pattern. *)
Lemma matchRetryAfter_spec (s ds : string) :
  matchRetryAfter s = Some ds <-> FirstHint ds s.
Proof.
  unfold FirstHint. induction s as [|c s IH].
  - assert (E : matchHere "" = None) by reflexivity.
    cbn [matchRetryAfter]. rewrite E. split; [discriminate |].
    intros (pre & rest & Hs & Hh & _).
    destruct pre; [| discriminate]. simpl in Hs. subst rest.
    apply matchHere_spec in Hh. congruence.
  - cbn [matchRetryAfter]. destruct (matchHere (String c s)) as [d|] eqn:E.
    + split.
      * intros [= ->]. exists "", (String c s). repeat split.
        -- now apply matchHere_spec.
        -- intros p1 p2 ds' Hp. destruct p1; [| discriminate].
           simpl in Hp. subst p2. congruence.
      * intros (pre & rest & Hs & Hh & Hfirst).
        destruct pre as [|x pre].
        -- simpl in Hs. subst rest. apply matchHere_spec in Hh. congruence.
        -- exfalso. apply (Hfirst "" (String x pre) d eq_refl); [discriminate |].
           rewrite <- Hs. now apply matchHere_spec.
    + rewrite IH. split.
      * intros (pre & rest & -> & Hh & Hfirst).
        exists (String c pre), rest. repeat split; [exact Hh |].
        intros p1 p2 ds' Hp Hne. destruct p1 as [|y p1].
        -- simpl in Hp. subst p2. simpl.
           apply (proj1 (matchHere_none _) E).
        -- simpl in Hp. injection Hp as _ Hp. now apply (Hfirst p1 p2 ds').
      * intros (pre & rest & Hs & Hh & Hfirst).
        destruct pre as [|x pre].
        -- simpl in Hs. subst rest. apply matchHere_spec in Hh. congruence.
        -- simpl in Hs. injection Hs as <- ->.
           exists pre, rest. repeat split; [exact Hh |].
           intros p1 p2 ds' Hp Hne.
           apply (Hfirst (String c p1) p2 ds'); [now rewrite Hp | exact Hne].
Qed.

(** Without a match anywhere the result is [null]. *)
Lemma matchRetryAfter_none (s : string) :
  matchRetryAfter s = None <-> NoHint s.
Proof.
  unfold NoHint. induction s as [|c s IH]; cbn [matchRetryAfter].
  - destruct (matchHere "") eqn:E; [vm_compute in E; discriminate |].
    split; [| reflexivity]. intros _ pre rest ds Hs.
    destruct pre; [| discriminate]. simpl in Hs. subst rest.
    now apply matchHere_none.
  - destruct (matchHere (String c s)) as [d|] eqn:E.
    + split; [discriminate |]. intros Hall. exfalso.
      apply (Hall "" (String c s) d eq_refl). now apply matchHere_spec.
    + rewrite IH. split.
      * intros Hall pre rest ds Hs. destruct pre as [|x pre].
        -- simpl in Hs. subst rest. now apply matchHere_none.
        -- simpl in Hs. injection Hs as _ ->. now apply (Hall pre rest ds).
      * intros Hall pre rest ds ->. apply (Hall (String c pre) rest ds).
        reflexivity.
Qed.

End RegexFacts.

(* ================================================================== *)
(** ** The delay before a retry *)
(* ================================================================== *)

Module DelayFacts.
Import JsString JsArray Retry RegexFacts.

Lemma extractRetryAfter_none (e : Error) :
  NoHint (message e) -> extractRetryAfter e = None.
Proof.
  intros Hno. apply matchRetryAfter_none in Hno.
  unfold extractRetryAfter. now rewrite Hno.
Qed.

Lemma extractRetryAfter_some (e : Error) (ds : string) :
  FirstHint ds (message e) ->
  extractRetryAfter e = Some (parseInt ds * 1000).
Proof.
  intros Hh. apply matchRetryAfter_spec in Hh.
  unfold extractRetryAfter. now rewrite Hh.
Qed.

Lemma scheduled_default_clamped (cfg : RetryConfig) (n : Z) :
  overloadBackoffDelays cfg = [10000; 20000; 40000; 60000; 60000] ->
  5 < n -> scheduled cfg n = Some 60000.
Proof.
  intros Hd Hn. unfold scheduled, index. rewrite Hd. simpl List.length.
  replace (Z.min (n - 1) (Z.of_nat 5 - 1)) with 4 by lia. reflexivity.
Qed.

(** C3.  For an overload-class error whose message has no retry-after hint
    and an attempt number of at least 1, the delay is
    [overloadBackoffDelays[min(attemptNumber - 1, length - 1)]]; with the
    default schedule, attempts 1 to 5 get 10000, 20000, 40000, 60000, 60000
    and every later attempt gets 60000. *)
Theorem overload_delay_follows_schedule
  (cfg : RetryConfig) (e : Error) (attemptNumber : Z) :
  isOverloadedError e = true ->
  NoHint (message e) ->
  1 <= attemptNumber ->
  chooseDelay cfg e attemptNumber
  = index (overloadBackoffDelays cfg)
          (Z.min (attemptNumber - 1)
                 (Z.of_nat (List.length (overloadBackoffDelays cfg)) - 1))
  /\ (overloadBackoffDelays cfg = overloadBackoffDelays DEFAULT_RETRY_CONFIG ->
      (attemptNumber = 1 -> chooseDelay cfg e attemptNumber = Some 10000)
      /\ (attemptNumber = 2 -> chooseDelay cfg e attemptNumber = Some 20000)
      /\ (attemptNumber = 3 -> chooseDelay cfg e attemptNumber = Some 40000)
      /\ (attemptNumber = 4 -> chooseDelay cfg e attemptNumber = Some 60000)
      /\ (attemptNumber = 5 -> chooseDelay cfg e attemptNumber = Some 60000)
      /\ (5 < attemptNumber -> chooseDelay cfg e attemptNumber = Some 60000)).
Proof.
  intros Hov Hno Hn.
  assert (Heq : chooseDelay cfg e attemptNumber = scheduled cfg attemptNumber).
  { unfold chooseDelay. rewrite Hov, (extractRetryAfter_none e Hno).
    reflexivity. }
  split; [exact Heq |].
  intros Hd. rewrite Heq. simpl in Hd.
  repeat split; try (intros ->; unfold scheduled; rewrite Hd; reflexivity).
  intros Hlate. now apply scheduled_default_clamped.
Qed.

Lemma overload_delay_follows_schedule_witness :
  chooseDelay DEFAULT_RETRY_CONFIG
    (mkError PlainError "HTTP error calling API: got status 529. Response: overloaded_error") 9
  = Some 60000.
Proof.
  refine (proj2 (proj2 (proj2 (proj2 (proj2
            (proj2 (overload_delay_follows_schedule DEFAULT_RETRY_CONFIG
                      (mkError PlainError "HTTP error calling API: got status 529. Response: overloaded_error") 9
                      _ _ _) _))))) _).
  - reflexivity.
  - apply matchRetryAfter_none. reflexivity.
  - lia.
  - reflexivity.
  - lia.
Defined.



(** C5, as stated, fails: an overload-class message with the hint
    "retry-after: 0" matches the pattern with 0 seconds, and the delay of
    the first attempt is 10000 ms of the schedule, not 0 ms. *)
Lemma hint_of_zero_is_not_used :
  let e := mkError PlainError "status 529 retry-after: 0" in
  isOverloadedError e = true
  /\ FirstHint "0" (message e)
  /\ parseInt "0" * 1000 = 0
  /\ chooseDelay DEFAULT_RETRY_CONFIG e 1 = Some 10000
  /\ chooseDelay DEFAULT_RETRY_CONFIG e 1 <> Some (parseInt "0" * 1000).
Proof.
  cbv zeta. split; [reflexivity |].
  split; [apply matchRetryAfter_spec; reflexivity |].
  split; [reflexivity |]. split; [reflexivity | discriminate].
Qed.

(** C5, amended.  For an overload-class error whose message has a
    retry-after hint with a number of seconds other than 0, and small
    enough for the milliseconds to be exact in a JavaScript number
    (seconds times 1000 at most 2^53), the delay is that number times 1000,
    whatever the schedule says. *)
Theorem nonzero_hint_sets_delay
  (cfg : RetryConfig) (e : Error) (ds : string) (attemptNumber : Z) :
  isOverloadedError e = true ->
  FirstHint ds (message e) ->
  parseInt ds <> 0 ->
  parseInt ds * 1000 <= 2 ^ 53 ->
  chooseDelay cfg e attemptNumber = Some (parseInt ds * 1000).
Proof.
  intros Hov Hm Hnz _. unfold chooseDelay.
  rewrite Hov, (extractRetryAfter_some e ds Hm).
  destruct (parseInt ds * 1000 =? 0) eqn:E; [| reflexivity].
  apply Z.eqb_eq in E. lia.
Qed.

Lemma nonzero_hint_sets_delay_witness :
  chooseDelay DEFAULT_RETRY_CONFIG
    (mkError PlainError "Rate limit hit. Retry-After: 30") 2 = Some 30000.
Proof.
  refine (nonzero_hint_sets_delay DEFAULT_RETRY_CONFIG
            (mkError PlainError "Rate limit hit. Retry-After: 30") "30" 2 _ _ _ _).
  - reflexivity.
  - apply matchRetryAfter_spec. reflexivity.
  - vm_compute. discriminate.
  - vm_compute. discriminate.
Defined.

(** C9.  For an overload-class error whose message has a retry-after hint of
    0 seconds, the parsed value 0 is not used: the delay is the entry of the
    schedule for the attempt, as it is without a hint. *)
Theorem zero_hint_falls_back_to_schedule
  (cfg : RetryConfig) (e : Error) (ds : string) (attemptNumber : Z) :
  isOverloadedError e = true ->
  FirstHint ds (message e) ->
  parseInt ds = 0 ->
  extractRetryAfter e = Some 0
  /\ chooseDelay cfg e attemptNumber
     = index (overloadBackoffDelays cfg)
             (Z.min (attemptNumber - 1)
                    (Z.of_nat (List.length (overloadBackoffDelays cfg)) - 1))
  /\ In (EvSleep (index (overloadBackoffDelays cfg)
                    (Z.min (attemptNumber - 1)
                       (Z.of_nat (List.length (overloadBackoffDelays cfg)) - 1))))
        (retryEvents cfg e attemptNumber).
Proof.
  intros Hov Hm Hz.
  assert (Hx : extractRetryAfter e = Some 0).
  { rewrite (extractRetryAfter_some e ds Hm), Hz. reflexivity. }
  assert (Hd : chooseDelay cfg e attemptNumber = scheduled cfg attemptNumber).
  { unfold chooseDelay. rewrite Hov, Hx. reflexivity. }
  repeat split; [exact Hx | exact Hd |].
  unfold retryEvents. rewrite Hd. apply in_or_app. right. now left.
Qed.

Lemma zero_hint_falls_back_to_schedule_witness :
  chooseDelay DEFAULT_RETRY_CONFIG
    (mkError PlainError "overloaded_error (retry-after: 0)") 2 = Some 20000.
Proof.
  refine (proj1 (proj2 (zero_hint_falls_back_to_schedule DEFAULT_RETRY_CONFIG
            (mkError PlainError "overloaded_error (retry-after: 0)") "0" 2 _ _ _))).
  - reflexivity.
  - apply matchRetryAfter_spec. reflexivity.
  - reflexivity.
Defined.

End DelayFacts.

(* ================================================================== *)
(** ** The retry loop *)
(* ================================================================== *)

Module LoopFacts.
Import JsString JsArray Retry.

Lemma maxRetriesFor_le_max (cfg : RetryConfig) (e : Error) :
  maxRetriesFor cfg e <= Z.max (maxOverloadRetries cfg) (maxOtherRetries cfg).
Proof. unfold maxRetriesFor. destruct (isOverloadedError e); lia. Qed.

Lemma exhausted_false_iff (cfg : RetryConfig) (e : Error) (n : Z) :
  exhausted cfg e n = false <-> n <= maxRetriesFor cfg e.
Proof. unfold exhausted. rewrite Z.gtb_ltb, Z.ltb_ge. reflexivity. Qed.

Lemma exhausted_true_iff (cfg : RetryConfig) (e : Error) (n : Z) :
  exhausted cfg e n = true <-> n > maxRetriesFor cfg e.
Proof. unfold exhausted. rewrite Z.gtb_ltb, Z.ltb_lt. lia. Qed.

Lemma failedAttempts_retryEvents (cfg : RetryConfig) (e : Error) (n : Z) :
  failedAttempts (retryEvents cfg e n) = 0%nat.
Proof. unfold failedAttempts, retryEvents. now destruct (onRetryStatus cfg). Qed.

Lemma retries_retryEvents (cfg : RetryConfig) (e : Error) (n : Z) :
  retries (retryEvents cfg e n) = 1%nat.
Proof. unfold retries, retryEvents. now destruct (onRetryStatus cfg). Qed.

(** The sleep before a retry lasts the delay [chooseDelay] gives. *)
Lemma retryEvents_sleep (cfg : RetryConfig) (e : Error) (n : Z) :
  exists announce,
    retryEvents cfg e n = (announce ++ [EvSleep (chooseDelay cfg e n)])%list
    /\ retries announce = 0%nat.
Proof.
  unfold retryEvents. eexists. split; [reflexivity |].
  now destruct (onRetryStatus cfg).
Qed.

Lemma failedAttempts_app (a b : list Event) :
  failedAttempts (a ++ b) = (failedAttempts a + failedAttempts b)%nat.
Proof. unfold failedAttempts. now rewrite filter_app, length_app. Qed.

Lemma retries_app (a b : list Event) :
  retries (a ++ b) = (retries a + retries b)%nat.
Proof. unfold retries. now rewrite filter_app, length_app. Qed.

Section Loop.
Context {S T : Type}.
Variable cfg : RetryConfig.
Variable fn : S -> Outcome T * S.

Lemma outcomeAt_succ (s : S) (j : nat) :
  outcomeAt fn s (Datatypes.S j) = outcomeAt fn (snd (fn s)) j.
Proof. reflexivity. Qed.

(** The loop always ends: the counter grows by one with each failure and
    the caps do not move. *)
Lemma retryLoop_total (fuel : nat) :
  forall (s : S) (n : Z),
    (Z.to_nat (Z.max (maxOverloadRetries cfg) (maxOtherRetries cfg) - n) < fuel)%nat ->
    exists r, retryLoop fuel cfg fn s n = Some r.
Proof.
  induction fuel as [|fuel IH]; intros s n Hfuel; [lia |].
  cbn [retryLoop]. destruct (fn s) as [[v | e] s'].
  - eexists. reflexivity.
  - destruct (exhausted cfg e (n + 1)) eqn:Ex.
    + eexists. reflexivity.
    + apply exhausted_false_iff in Ex.
      pose proof (maxRetriesFor_le_max cfg e) as Hle.
      destruct (IH s' (n + 1)) as [r ->]; [lia |].
      eexists. reflexivity.
Qed.

(** When the calls 0 .. k-1 fail below their caps and call k fails above
    its cap, the loop makes exactly these k+1 calls, sleeps k times and
    throws the error of call k. *)
Lemma retryLoop_first_exhausted (k : nat) :
  forall (fuel : nat) (s : S) (n : Z) (ek : Error),
    (k < fuel)%nat ->
    (forall j, (j < k)%nat ->
       exists e, outcomeAt fn s j = Throw e
                 /\ exhausted cfg e (n + Z.of_nat j + 1) = false) ->
    outcomeAt fn s k = Throw ek ->
    exhausted cfg ek (n + Z.of_nat k + 1) = true ->
    exists tr,
      retryLoop fuel cfg fn s n
      = Some (Throw ek, worldAfter fn s (Datatypes.S k), tr)
      /\ failedAttempts tr = Datatypes.S k
      /\ retries tr = k.
Proof.
  induction k as [|k IH]; intros fuel s n ek Hfuel Hbefore Hk Hex.
  - destruct fuel as [|fuel]; [lia |].
    unfold outcomeAt in Hk. cbn [worldAfter] in *. cbn [retryLoop].
    destruct (fn s) as [o s'] eqn:Efn. simpl in Hk. subst o.
    replace (n + Z.of_nat 0 + 1) with (n + 1) in Hex by lia.
    rewrite Hex. eexists. split; [reflexivity |]. split; reflexivity.
  - destruct fuel as [|fuel]; [lia |].
    destruct (Hbefore 0%nat) as [e0 [H0 Hex0]]; [lia |].
    replace (n + Z.of_nat 0 + 1) with (n + 1) in Hex0 by lia.
    rewrite outcomeAt_succ in Hk.
    destruct (IH fuel (snd (fn s)) (n + 1) ek) as [tr [Hrun [Hf Hr]]].
    + lia.
    + intros j Hj. destruct (Hbefore (Datatypes.S j)) as [e [He Hexj]]; [lia |].
      exists e. split; [exact He |].
      replace (n + 1 + Z.of_nat j + 1)
        with (n + Z.of_nat (Datatypes.S j) + 1) by lia.
      exact Hexj.
    + exact Hk.
    + replace (n + 1 + Z.of_nat k + 1)
        with (n + Z.of_nat (Datatypes.S k) + 1) by lia.
      exact Hex.
    + unfold outcomeAt in H0. cbn [worldAfter] in *. cbn [retryLoop].
      destruct (fn s) as [o s'] eqn:Efn. simpl in H0, Hrun. subst o.
      rewrite Hex0, Hrun. cbn [addEvents].
      eexists. split; [reflexivity |].
      change ((EvCall (Some e0) :: retryEvents cfg e0 (n + 1)) ++ tr)%list
        with ([EvCall (Some e0)] ++ retryEvents cfg e0 (n + 1) ++ tr)%list.
      rewrite !failedAttempts_app, !retries_app,
        failedAttempts_retryEvents, retries_retryEvents, Hf, Hr.
      split; reflexivity.
Qed.

End Loop.

(** [retryWithBackoff] gives a result for every function and
    configuration. *)
Lemma retryWithBackoff_total {S T} (fn : S -> Outcome T * S)
  (config : PartialRetryConfig) (s : S) :
  exists r, retryWithBackoff fn config s = Some r.
Proof.
  unfold retryWithBackoff, enoughFuel. apply retryLoop_total.
  rewrite Z.sub_0_r. lia.
Qed.

(** The same through [retryWithBackoff], counting failures from 1. *)
Lemma retryWithBackoff_first_exhausted {S T} (fn : S -> Outcome T * S)
  (config : PartialRetryConfig) (s : S) (k : nat) (ek : Error) :
  (forall j, (j < k)%nat ->
     exists e, outcomeAt fn s j = Throw e
               /\ Z.of_nat (Datatypes.S j) <= maxRetriesFor (fullConfig config) e) ->
  outcomeAt fn s k = Throw ek ->
  Z.of_nat (Datatypes.S k) > maxRetriesFor (fullConfig config) ek ->
  exists tr,
    retryWithBackoff fn config s
    = Some (Throw ek, worldAfter fn s (Datatypes.S k), tr)
    /\ failedAttempts tr = Datatypes.S k
    /\ retries tr = k.
Proof.
  intros Hbefore Hk Hex. unfold retryWithBackoff.
  apply retryLoop_first_exhausted.
  - unfold enoughFuel. destruct k as [|k]; [lia |].
    destruct (Hbefore k) as [e [_ Hle]]; [lia |].
    pose proof (maxRetriesFor_le_max (fullConfig config) e). lia.
  - intros j Hj. destruct (Hbefore j Hj) as [e [He Hle]].
    exists e. split; [exact He |]. apply exhausted_false_iff. lia.
  - exact Hk.
  - apply exhausted_true_iff. lia.
Qed.

(** Failures of one class: the run ends with the error of call number cap,
    counting from 0, after cap sleeps. *)
Lemma retryWithBackoff_one_class {S T} (fn : S -> Outcome T * S)
  (config : PartialRetryConfig) (s : S) (b : bool) (cap : Z) :
  cap = (if b then maxOverloadRetries (fullConfig config)
         else maxOtherRetries (fullConfig config)) ->
  (forall k, exists e, outcomeAt fn s k = Throw e /\ isOverloadedError e = b) ->
  exists e tr,
    retryWithBackoff fn config s
    = Some (Throw e, worldAfter fn s (Datatypes.S (Z.to_nat cap)), tr)
    /\ outcomeAt fn s (Z.to_nat cap) = Throw e
    /\ isOverloadedError e = b
    /\ retries tr = Z.to_nat cap
    /\ failedAttempts tr = Datatypes.S (Z.to_nat cap).
Proof.
  intros Hcapdef Hfail.
  assert (Hcap : forall e, isOverloadedError e = b ->
                           maxRetriesFor (fullConfig config) e = cap).
  { intros e He. unfold maxRetriesFor. rewrite He, Hcapdef. reflexivity. }
  destruct (Hfail (Z.to_nat cap)) as [ek [Hk Hclass]].
  destruct (retryWithBackoff_first_exhausted fn config s (Z.to_nat cap) ek)
    as [tr [Hrun [Hf Hr]]].
  - intros j Hj. destruct (Hfail j) as [e [He Hb]].
    exists e. split; [exact He |]. rewrite (Hcap e Hb). lia.
  - exact Hk.
  - rewrite (Hcap ek Hclass). lia.
  - exists ek, tr. now repeat split.
Qed.

End LoopFacts.

(* ================================================================== *)
(** ** Every run of the retry loop *)
(* ================================================================== *)

Module RunFacts.
Import JsString JsArray Retry RetryTrace LoopFacts.
Local Open Scope list_scope.

Lemma calls_app (a b : list Event) : calls (a ++ b) = (calls a + calls b)%nat.
Proof. unfold calls. now rewrite filter_app, length_app. Qed.

Lemma sleeps_app (a b : list Event) : sleeps (a ++ b) = sleeps a ++ sleeps b.
Proof. unfold sleeps. apply flat_map_app. Qed.

Lemma calls_retryEvents (cfg : RetryConfig) (e : Error) (n : Z) :
  calls (retryEvents cfg e n) = 0%nat.
Proof. unfold calls, retryEvents. now destruct (onRetryStatus cfg). Qed.

Lemma sleeps_retryEvents (cfg : RetryConfig) (e : Error) (n : Z) :
  sleeps (retryEvents cfg e n) = [chooseDelay cfg e n].
Proof. unfold sleeps, retryEvents. now destruct (onRetryStatus cfg). Qed.

Lemma calls_retry_step (cfg : RetryConfig) (e : Error) (n : Z) (tr : list Event) :
  calls (EvCall (Some e) :: retryEvents cfg e n ++ tr) = Datatypes.S (calls tr).
Proof. unfold calls, retryEvents. now destruct (onRetryStatus cfg). Qed.

Lemma retries_retry_step (cfg : RetryConfig) (e : Error) (n : Z) (tr : list Event) :
  retries (EvCall (Some e) :: retryEvents cfg e n ++ tr)
  = Datatypes.S (retries tr).
Proof. unfold retries, retryEvents. now destruct (onRetryStatus cfg). Qed.

Lemma failedAttempts_retry_step (cfg : RetryConfig) (e : Error) (n : Z)
  (tr : list Event) :
  failedAttempts (EvCall (Some e) :: retryEvents cfg e n ++ tr)
  = Datatypes.S (failedAttempts tr).
Proof. unfold failedAttempts, retryEvents. now destruct (onRetryStatus cfg). Qed.

Lemma sleeps_retry_step (cfg : RetryConfig) (e : Error) (n : Z) (tr : list Event) :
  sleeps (EvCall (Some e) :: retryEvents cfg e n ++ tr)
  = chooseDelay cfg e n :: sleeps tr.
Proof. unfold sleeps, retryEvents. now destruct (onRetryStatus cfg). Qed.

Section Run.
Context {S T : Type}.
Variable cfg : RetryConfig.
Variable fn : S -> Outcome T * S.

(** The shape of every finished run, from any value of the counter. *)
Lemma retryLoop_shape (fuel : nat) :
  forall (s : S) (n : Z) (o : Outcome T) (w : S) (tr : list Event),
    retryLoop fuel cfg fn s n = Some (o, w, tr) ->
    calls tr = Datatypes.S (retries tr)
    /\ List.length (sleeps tr) = retries tr
    /\ w = worldAfter fn s (calls tr)
    /\ outcomeAt fn s (retries tr) = o
    /\ Z.of_nat (calls tr)
       <= Z.max 1 (Z.max (maxOverloadRetries cfg) (maxOtherRetries cfg) - n + 1)
    /\ (forall j, (j < retries tr)%nat ->
          exists e, outcomeAt fn s j = Throw e
                    /\ n + Z.of_nat j + 1 <= maxRetriesFor cfg e
                    /\ nth_error (sleeps tr) j
                       = Some (chooseDelay cfg e (n + Z.of_nat j + 1)))
    /\ (forall e, o = Throw e ->
          n + Z.of_nat (calls tr) > maxRetriesFor cfg e).
Proof.
  induction fuel as [|fuel IH]; intros s n o w tr; [discriminate |].
  cbn [retryLoop]. unfold outcomeAt.
  destruct (fn s) as [[v | e] s'] eqn:Efn.
  - intros [= <- <- <-].
    destruct (onRetryStatus cfg && (n >? 0)); cbn; rewrite Efn; cbn;
      (do 4 (split; [reflexivity |]); split; [lia |];
       split; [intros j Hj; lia | discriminate]).
  - destruct (exhausted cfg e (n + 1)) eqn:Ex.
    + intros [= <- <- <-]. cbn. rewrite Efn. cbn.
      apply exhausted_true_iff in Ex.
      do 4 (split; [reflexivity |]). split; [lia |]. split.
      * intros j Hj. lia.
      * intros e' [= <-]. lia.
    + destruct (retryLoop fuel cfg fn s' (n + 1)) as [[[o' w'] tr']|] eqn:Erec;
        [| discriminate].
      cbn [addEvents]. intros [= <- <- <-].
      destruct (IH s' (n + 1) o' w' tr' Erec)
        as (Hcalls & Hlen & Hw & Hout & Hbound & Hbefore & Hthrow).
      apply exhausted_false_iff in Ex.
      pose proof (maxRetriesFor_le_max cfg e) as Hmax.
      change ((EvCall (Some e) :: retryEvents cfg e (n + 1)) ++ tr')
        with (EvCall (Some e) :: retryEvents cfg e (n + 1) ++ tr').
      rewrite calls_retry_step, retries_retry_step, sleeps_retry_step.
      cbn [List.length worldAfter].
      rewrite Efn. cbn [snd fst].
      split; [lia |]. split; [now rewrite Hlen |].
      split; [exact Hw |]. split; [exact Hout |]. split; [lia |]. split.
      * intros [|j] Hj.
        -- exists e. cbn. rewrite Efn. cbn.
           replace (n + 0 + 1) with (n + 1) by lia. now repeat split.
        -- destruct (Hbefore j) as [e' [He' [Hle Hnth]]]; [lia |].
           exists e'. cbn [worldAfter nth_error]. rewrite Efn. cbn [snd].
           replace (n + Z.of_nat (Datatypes.S j) + 1)
             with (n + 1 + Z.of_nat j + 1) by lia.
           now repeat split.
      * intros e' He'. specialize (Hthrow e' He'). lia.
Qed.

(** The calls that threw are those followed by a sleep, and the last one
    when the run throws. *)
Lemma failedAttempts_of_run (fuel : nat) :
  forall (s : S) (n : Z) (o : Outcome T) (w : S) (tr : list Event),
    retryLoop fuel cfg fn s n = Some (o, w, tr) ->
    failedAttempts tr
    = (retries tr + match o with Throw _ => 1 | Return _ => 0 end)%nat.
Proof.
  induction fuel as [|fuel IH]; intros s n o w tr; [discriminate |].
  cbn [retryLoop]. destruct (fn s) as [[v | e] s'].
  - intros [= <- <- <-]. now destruct (onRetryStatus cfg && (n >? 0)).
  - destruct (exhausted cfg e (n + 1)).
    + intros [= <- <- <-]. reflexivity.
    + destruct (retryLoop fuel cfg fn s' (n + 1)) as [[[o' w'] tr']|] eqn:Erec;
        [| discriminate].
      cbn [addEvents]. intros [= <- <- <-].
      change ((EvCall (Some e) :: retryEvents cfg e (n + 1)) ++ tr')
        with (EvCall (Some e) :: retryEvents cfg e (n + 1) ++ tr').
      rewrite failedAttempts_retry_step, retries_retry_step,
        (IH s' (n + 1) o' w' tr' Erec).
      lia.
Qed.

End Run.

(** X1.  For caps that are integers and when every sleep ends, every run
    of [retryWithBackoff] ends: it calls [fn] at most
    max(0, maxOverloadRetries, maxOtherRetries) + 1 times, sleeps once
    between two calls, and leaves the world that these calls produce. *)
Theorem every_run_ends_within_the_caps {S T}
  (fn : S -> Outcome T * S) (config : PartialRetryConfig) (s : S) :
  sleepsEnd (fullConfig config) fn s ->
  exists o w tr,
    retryWithBackoff fn config s = Some (o, w, tr)
    /\ calls tr = Datatypes.S (retries tr)
    /\ List.length (sleeps tr) = retries tr
    /\ Z.of_nat (calls tr)
       <= Z.max 0 (Z.max (maxOverloadRetries (fullConfig config))
                         (maxOtherRetries (fullConfig config))) + 1
    /\ w = worldAfter fn s (calls tr).
Proof.
  intros _.
  destruct (retryWithBackoff_total fn config s) as [[[o w] tr] Hrun].
  exists o, w, tr. split; [exact Hrun |].
  destruct (retryLoop_shape (fullConfig config) fn _ s 0 o w tr Hrun)
    as (Hcalls & Hlen & Hw & _ & Hbound & _).
  split; [exact Hcalls |]. split; [exact Hlen |]. split; [lia | exact Hw].
Qed.

Lemma every_run_ends_within_the_caps_witness :
  exists o w tr,
    retryWithBackoff
      (fun s : unit => (@Throw unit (mkError PlainError "boom"), s))
      emptyConfig tt
    = Some (o, w, tr)
    /\ calls tr = Datatypes.S (retries tr)
    /\ List.length (sleeps tr) = retries tr
    /\ Z.of_nat (calls tr) <= 6
    /\ w = tt.
Proof.
  destruct (every_run_ends_within_the_caps
              (fun s : unit => (@Throw unit (mkError PlainError "boom"), s))
              emptyConfig tt)
    as (o & w & tr & Hrun & Hcalls & Hlen & Hbound & Hw).
  - intros k e He Hcap. unfold outcomeAt in He. cbn in He.
    injection He as <-. cbn in Hcap.
    destruct k as [|[|[|k]]]; [| | | lia]; vm_compute; discriminate.
  - exists o, w, tr. split; [exact Hrun |]. split; [exact Hcalls |].
    split; [exact Hlen |]. split; [exact Hbound | now destruct w].
Defined.

(** X2.  Without a status callback and when every sleep ends, what a run
    gives is what the last call of [fn] gave, value or error, as it is.
    Every call before it threw an error whose failure number was within the
    cap of its class ([maxOverloadRetries] for an overload-class error,
    [maxOtherRetries] for another), and an error that ends the run has a
    failure number above the cap of its class. *)
Theorem outcome_is_that_of_the_last_call {S T}
  (fn : S -> Outcome T * S) (config : PartialRetryConfig) (s : S)
  (o : Outcome T) (w : S) (tr : list Event) :
  onRetryStatus (fullConfig config) = false ->
  sleepsEnd (fullConfig config) fn s ->
  retryWithBackoff fn config s = Some (o, w, tr) ->
  outcomeAt fn s (retries tr) = o
  /\ (forall j, (j < retries tr)%nat ->
        exists e, outcomeAt fn s j = Throw e
                  /\ Z.of_nat j + 1
                     <= (if isOverloadedError e
                         then maxOverloadRetries (fullConfig config)
                         else maxOtherRetries (fullConfig config)))
  /\ (forall e, o = Throw e ->
        Z.of_nat (retries tr) + 1
        > (if isOverloadedError e
           then maxOverloadRetries (fullConfig config)
           else maxOtherRetries (fullConfig config))).
Proof.
  intros _ _ Hrun.
  destruct (retryLoop_shape (fullConfig config) fn _ s 0 o w tr Hrun)
    as (Hcalls & _ & _ & Hout & _ & Hbefore & Hthrow).
  split; [exact Hout |]. split.
  - intros j Hj. destruct (Hbefore j Hj) as [e [He [Hle _]]].
    exists e. split; [exact He |]. unfold maxRetriesFor in Hle. lia.
  - intros e He. specialize (Hthrow e He). unfold maxRetriesFor in Hthrow. lia.
Qed.

Lemma outcome_is_that_of_the_last_call_witness :
  outcomeAt
    (fun calls : nat =>
       (if (calls <? 4)%nat
        then @Throw string
               (mkError PlainError "HTTP error calling API: got status 529. Response: busy")
        else Return "done",
        Datatypes.S calls))
    0%nat 4
  = Return "done".
Proof.
  refine (proj1 (outcome_is_that_of_the_last_call
            (fun calls : nat =>
               (if (calls <? 4)%nat
                then @Throw string
                       (mkError PlainError "HTTP error calling API: got status 529. Response: busy")
                else Return "done",
                Datatypes.S calls))
            emptyConfig 0%nat (Return "done") 5%nat
            [EvCall (Some (mkError PlainError "HTTP error calling API: got status 529. Response: busy"));
             EvSleep (Some 10000);
             EvCall (Some (mkError PlainError "HTTP error calling API: got status 529. Response: busy"));
             EvSleep (Some 20000);
             EvCall (Some (mkError PlainError "HTTP error calling API: got status 529. Response: busy"));
             EvSleep (Some 40000);
             EvCall (Some (mkError PlainError "HTTP error calling API: got status 529. Response: busy"));
             EvSleep (Some 60000);
             EvCall None] _ _ _)).
  - reflexivity.
  - intros k e He Hcap.
    assert (Hk : (k < 5)%nat)
      by (cbn in Hcap; destruct (isOverloadedError e); lia).
    destruct k as [|[|[|[|[|k]]]]]; [| | | | | lia];
      unfold outcomeAt in He; cbn in He;
      try discriminate; injection He as <-; vm_compute; discriminate.
  - reflexivity.
Defined.

(** X3.  Without a status callback and when every sleep ends: when the
    calls 0 .. k-1 of [fn] throw errors whose failure numbers are within
    the caps of their classes ([maxOverloadRetries] for an overload-class
    error, [maxOtherRetries] for another) and call k returns a value, the
    run returns that value after k sleeps. *)
Theorem value_after_retried_failures {S T}
  (fn : S -> Outcome T * S) (config : PartialRetryConfig) (s : S)
  (k : nat) (v : T) :
  onRetryStatus (fullConfig config) = false ->
  sleepsEnd (fullConfig config) fn s ->
  (forall j, (j < k)%nat ->
     exists e, outcomeAt fn s j = Throw e
               /\ Z.of_nat j + 1
                  <= (if isOverloadedError e
                      then maxOverloadRetries (fullConfig config)
                      else maxOtherRetries (fullConfig config))) ->
  outcomeAt fn s k = Return v ->
  exists tr,
    retryWithBackoff fn config s
    = Some (Return v, worldAfter fn s (Datatypes.S k), tr)
    /\ retries tr = k
    /\ calls tr = Datatypes.S k.
Proof.
  intros _ _ Hbefore Hk.
  destruct (retryWithBackoff_total fn config s) as [[[o w] tr] Hrun].
  destruct (retryLoop_shape (fullConfig config) fn _ s 0 o w tr Hrun)
    as (Hcalls & _ & Hw & Hout & _ & Hfailed & Hthrow).
  assert (Hk' : retries tr = k).
  { destruct (Nat.lt_trichotomy (retries tr) k) as [Hlt | [Heq | Hgt]].
    - destruct (Hbefore _ Hlt) as [e [He Hle]].
      rewrite Hout in He. specialize (Hthrow e He).
      unfold maxRetriesFor in Hthrow. lia.
    - exact Heq.
    - destruct (Hfailed k Hgt) as [e [He _]]. congruence. }
  rewrite Hk' in *. rewrite Hk in Hout. subst o.
  exists tr. rewrite Hrun, Hw, Hcalls. split; [reflexivity |].
  split; [exact Hk' | reflexivity].
Qed.

Lemma value_after_retried_failures_witness :
  exists tr,
    retryWithBackoff
      (fun calls : nat =>
         (if (calls <? 4)%nat
          then @Throw string
                 (mkError PlainError "HTTP error calling API: got status 529. Response: busy")
          else Return "done",
          Datatypes.S calls))
      emptyConfig 0%nat
    = Some (Return "done", 5%nat, tr)
    /\ retries tr = 4%nat
    /\ calls tr = 5%nat.
Proof.
  refine (value_after_retried_failures
            (fun calls : nat =>
               (if (calls <? 4)%nat
                then @Throw string
                       (mkError PlainError "HTTP error calling API: got status 529. Response: busy")
                else Return "done",
                Datatypes.S calls))
            emptyConfig 0%nat 4 "done" _ _ _ _).
  - reflexivity.
  - intros k e He Hcap.
    assert (Hk : (k < 5)%nat)
      by (cbn in Hcap; destruct (isOverloadedError e); lia).
    destruct k as [|[|[|[|[|k]]]]]; [| | | | | lia];
      unfold outcomeAt in He; cbn in He;
      try discriminate; injection He as <-; vm_compute; discriminate.
  - intros j Hj. destruct j as [|[|[|[|j]]]]; [| | | | lia];
      (eexists; split; [reflexivity | vm_compute; discriminate]).
  - reflexivity.
Defined.

(** X4.  The sleep after failure number j lasts the delay chosen for the
    error of that failure and the attempt number j: the attempt numbers of
    a run are 1, 2, 3, ... in the order of the failures. *)
Theorem each_sleep_is_the_delay_of_its_failure {S T}
  (fn : S -> Outcome T * S) (config : PartialRetryConfig) (s : S)
  (o : Outcome T) (w : S) (tr : list Event) :
  retryWithBackoff fn config s = Some (o, w, tr) ->
  List.length (sleeps tr) = retries tr
  /\ forall j, (j < retries tr)%nat ->
       exists e, outcomeAt fn s j = Throw e
                 /\ nth_error (sleeps tr) j
                    = Some (chooseDelay (fullConfig config) e (Z.of_nat j + 1)).
Proof.
  intros Hrun.
  destruct (retryLoop_shape (fullConfig config) fn _ s 0 o w tr Hrun)
    as (_ & Hlen & _ & _ & _ & Hbefore & _).
  split; [exact Hlen |].
  intros j Hj. destruct (Hbefore j Hj) as [e [He [_ Hnth]]].
  exists e. split; [exact He | exact Hnth].
Qed.

Lemma each_sleep_is_the_delay_of_its_failure_witness :
  List.length (sleeps [EvCall (Some (mkError PlainError "boom")); EvSleep (Some 1000);
                       EvCall (Some (mkError PlainError "boom")); EvSleep (Some 2000);
                       EvCall None])
  = retries [EvCall (Some (mkError PlainError "boom")); EvSleep (Some 1000);
             EvCall (Some (mkError PlainError "boom")); EvSleep (Some 2000);
             EvCall None].
Proof.
  refine (proj1 (each_sleep_is_the_delay_of_its_failure
            (fun calls : nat =>
               (if (calls <? 2)%nat
                then @Throw string (mkError PlainError "boom")
                else Return "done",
                Datatypes.S calls))
            emptyConfig 0%nat (Return "done") 3%nat
            [EvCall (Some (mkError PlainError "boom")); EvSleep (Some 1000);
             EvCall (Some (mkError PlainError "boom")); EvSleep (Some 2000);
             EvCall None] _)).
  reflexivity.
Defined.

End RunFacts.

(* ================================================================== *)
(** ** Exhaustion of the retries *)
(* ================================================================== *)

Module ExhaustionFacts.
Import JsString JsArray Retry RetryTrace LoopFacts.

(** C1, as stated, fails: with the default configuration and a function
    that always throws the same error, which is not overload-class, the
    error is thrown again after 4 failed attempts; [maxOtherRetries] is 3. *)
Lemma exhaustion_takes_one_more_attempt :
  let boom := mkError PlainError "boom" in
  let fn := fun s : unit => (@Throw unit boom, s) in
  isOverloadedError boom = false
  /\ maxOtherRetries (fullConfig emptyConfig) = 3
  /\ exists tr,
       retryWithBackoff fn emptyConfig tt = Some (Throw boom, tt, tr)
       /\ failedAttempts tr = 4%nat
       /\ Z.of_nat (failedAttempts tr) <> maxOtherRetries (fullConfig emptyConfig).
Proof.
  split; [reflexivity |]. split; [reflexivity |].
  eexists. split; [reflexivity |]. split; [reflexivity |].
  vm_compute. discriminate.
Qed.

(** C1, amended.  For a function that fails on every call with errors of one
    class, and when every sleep ends (the delay before each retry is at most
    2^53 ms, so it is neither rounded nor infinite), [retryWithBackoff]
    throws the error of the last call as it is, after exactly cap retries,
    that is cap + 1 failed calls (no retry and one failed call when the cap
    is below 0), where cap is [maxOverloadRetries] for overload-class errors
    and [maxOtherRetries] for the others; a failure is retried exactly when
    its attempt number is at most the cap. *)
Theorem uniform_failures_exhaust_after_cap_retries {S T}
  (fn : S -> Outcome T * S) (config : PartialRetryConfig) (s : S) (b : bool) :
  (forall k, exists e, outcomeAt fn s k = Throw e /\ isOverloadedError e = b) ->
  sleepsEnd (fullConfig config) fn s ->
  exists e tr,
    retryWithBackoff fn config s
    = Some (Throw e,
            worldAfter fn s
              (Datatypes.S
                 (Z.to_nat (if b then maxOverloadRetries (fullConfig config)
                            else maxOtherRetries (fullConfig config)))),
            tr)
    /\ outcomeAt fn s
         (Z.to_nat (if b then maxOverloadRetries (fullConfig config)
                    else maxOtherRetries (fullConfig config)))
       = Throw e
    /\ isOverloadedError e = b
    /\ retries tr
       = Z.to_nat (if b then maxOverloadRetries (fullConfig config)
                   else maxOtherRetries (fullConfig config))
    /\ failedAttempts tr
       = Datatypes.S
           (Z.to_nat (if b then maxOverloadRetries (fullConfig config)
                      else maxOtherRetries (fullConfig config)))
    /\ (forall e' attemptNumber,
          isOverloadedError e' = b ->
          (exhausted (fullConfig config) e' attemptNumber = false
           <-> attemptNumber
               <= (if b then maxOverloadRetries (fullConfig config)
                   else maxOtherRetries (fullConfig config)))).
Proof.
  intros Hfail _.
  destruct (retryWithBackoff_one_class fn config s b _ eq_refl Hfail)
    as (e & tr & Hrun & Hlast & Hclass & Hr & Hf).
  exists e, tr.
  split; [exact Hrun |]. split; [exact Hlast |]. split; [exact Hclass |].
  split; [exact Hr |]. split; [exact Hf |].
  intros e' attemptNumber Hclass'. rewrite exhausted_false_iff.
  unfold maxRetriesFor. rewrite Hclass'. destruct b; reflexivity.
Qed.

Lemma uniform_failures_exhaust_after_cap_retries_witness :
  exists e tr,
    retryWithBackoff (fun s : unit => (@Throw unit (mkError PlainError "boom"), s))
      emptyConfig tt
    = Some (Throw e, tt, tr)
    /\ retries tr = 3%nat /\ failedAttempts tr = 4%nat.
Proof.
  destruct (uniform_failures_exhaust_after_cap_retries
              (fun s : unit => (@Throw unit (mkError PlainError "boom"), s))
              emptyConfig tt false)
    as [e [tr [Hrun [_ [_ [Hr [Hf _]]]]]]].
  - intros k. exists (mkError PlainError "boom"). split; reflexivity.
  - intros k e He Hcap. unfold outcomeAt in He. cbn in He.
    injection He as <-. cbn in Hcap.
    destruct k as [|[|[|k]]]; [| | | lia]; vm_compute; discriminate.
  - exists e, tr. split; [exact Hrun |]. split; [exact Hr | exact Hf].
Defined.

(** C10.  The failure counter is shared by the two classes and the cap is
    chosen anew from the class of each failure: when every call fails and
    every sleep ends, the loop throws at the first failure whose number,
    counted over all failures, is above the cap of that failure's own class,
    [maxOverloadRetries] for an overload-class failure and [maxOtherRetries]
    for another.  So when the first [maxOtherRetries] failures are
    overload-class and are retried, a following failure that is not
    overload-class is number [maxOtherRetries + 1] and ends the run,
    although it is the only failure of its class; an overload-class failure
    with that number is retried. *)
Theorem mixed_classes_share_one_counter {S T}
  (fn : S -> Outcome T * S) (config : PartialRetryConfig) (s : S) :
  sleepsEnd (fullConfig config) fn s ->
  (forall (k : nat) (ek : Error),
     (forall j, (j < k)%nat ->
        exists e, outcomeAt fn s j = Throw e
                  /\ Z.of_nat (Datatypes.S j)
                     <= (if isOverloadedError e
                         then maxOverloadRetries (fullConfig config)
                         else maxOtherRetries (fullConfig config))) ->
     outcomeAt fn s k = Throw ek ->
     Z.of_nat (Datatypes.S k)
     > (if isOverloadedError ek
        then maxOverloadRetries (fullConfig config)
        else maxOtherRetries (fullConfig config)) ->
     exists tr,
       retryWithBackoff fn config s
       = Some (Throw ek, worldAfter fn s (Datatypes.S k), tr)
       /\ failedAttempts tr = Datatypes.S k)
  /\
  (forall (ek : Error),
     0 <= maxOtherRetries (fullConfig config)
          < maxOverloadRetries (fullConfig config) ->
     (forall j, (j < Z.to_nat (maxOtherRetries (fullConfig config)))%nat ->
        exists e, outcomeAt fn s j = Throw e /\ isOverloadedError e = true) ->
     outcomeAt fn s (Z.to_nat (maxOtherRetries (fullConfig config))) = Throw ek ->
     (isOverloadedError ek = false ->
      exists tr,
        retryWithBackoff fn config s
        = Some (Throw ek,
                worldAfter fn s
                  (Datatypes.S (Z.to_nat (maxOtherRetries (fullConfig config)))),
                tr)
        /\ Z.of_nat (failedAttempts tr) = maxOtherRetries (fullConfig config) + 1)
     /\
     (isOverloadedError ek = true ->
      forall o w tr,
        retryWithBackoff fn config s = Some (o, w, tr) ->
        maxOtherRetries (fullConfig config) + 1 < Z.of_nat (failedAttempts tr)
        \/ (exists v, o = Return v))).
Proof.
  intros _. split.
  - intros k ek Hbefore Hk Hex.
    destruct (retryWithBackoff_first_exhausted fn config s k ek Hbefore Hk Hex)
      as [tr [Hrun [Hf _]]].
    now exists tr.
  - intros ek Hcaps Hbefore Hk. split.
    + intros Hother.
      destruct (retryWithBackoff_first_exhausted fn config s
                  (Z.to_nat (maxOtherRetries (fullConfig config))) ek)
        as [tr [Hrun [Hf _]]].
      * intros j Hj. destruct (Hbefore j Hj) as [e [He Hov]].
        exists e. split; [exact He |]. unfold maxRetriesFor. rewrite Hov. lia.
      * exact Hk.
      * unfold maxRetriesFor. rewrite Hother. lia.
      * exists tr. split; [exact Hrun |]. rewrite Hf. lia.
    + intros Hover o w tr Hrun.
      destruct (RunFacts.retryLoop_shape (fullConfig config) fn _ s 0 o w tr Hrun)
        as (Hcalls & _ & _ & Hout & _ & Hfailed & Hthrow).
      destruct o as [v | e]; [right; now exists v | left].
      rewrite (RunFacts.failedAttempts_of_run (fullConfig config) fn _ s 0
                 _ w tr Hrun).
      specialize (Hthrow e eq_refl).
      destruct (Nat.lt_trichotomy (retries tr)
                  (Z.to_nat (maxOtherRetries (fullConfig config))))
        as [Hlt | [Heq | Hgt]].
      * destruct (Hbefore _ Hlt) as [e' [He' Hov']].
        rewrite Hout in He'. injection He' as <-.
        unfold maxRetriesFor in Hthrow. rewrite Hov' in Hthrow. lia.
      * rewrite Heq, Hk in Hout. injection Hout as <-.
        unfold maxRetriesFor in Hthrow. rewrite Hover in Hthrow. lia.
      * lia.
Qed.

Lemma mixed_classes_share_one_counter_witness :
  exists tr,
    retryWithBackoff
      (fun calls : nat =>
         (@Throw unit
            (if (calls <? 4)%nat
             then mkError PlainError "HTTP error calling API: got status 529. Response: overloaded_error"
             else mkError PlainError "boom"),
          Datatypes.S calls))
      emptyConfig 0%nat
    = Some (Throw (mkError PlainError "boom"), 5%nat, tr)
    /\ failedAttempts tr = 5%nat.
Proof.
  refine (proj1 (mixed_classes_share_one_counter
            (fun calls : nat =>
               (@Throw unit
                  (if (calls <? 4)%nat
                   then mkError PlainError "HTTP error calling API: got status 529. Response: overloaded_error"
                   else mkError PlainError "boom"),
                Datatypes.S calls))
            emptyConfig 0%nat _) 4%nat (mkError PlainError "boom") _ _ _).
  - intros k e He Hcap.
    assert (Hk : (k < 5)%nat)
      by (cbn in Hcap; destruct (isOverloadedError e); lia).
    destruct k as [|[|[|[|[|k]]]]]; [| | | | | lia];
      unfold outcomeAt in He; cbn in He; injection He as <-;
      [vm_compute; discriminate ..|].
    exfalso. revert Hcap.
    replace (isOverloadedError (mkError PlainError "boom")) with false
      by reflexivity.
    cbn. lia.
  - intros j Hj. destruct j as [|[|[|[|j]]]]; [| | | | lia];
      (eexists; split; [reflexivity | vm_compute; discriminate]).
  - reflexivity.
  - vm_compute. reflexivity.
Defined.

End ExhaustionFacts.

(* ================================================================== *)
(** ** The Anthropic request and response *)
(* ================================================================== *)

Module AnthropicFacts.
Import JsString JsStringFacts JsArray Retry RetryTrace Anthropic AnthropicConstants.

Lemma lastOf_snoc (init : list Message) (m : Message) :
  lastOf (init ++ [m]) = Some m.
Proof.
  unfold lastOf, index. rewrite length_app. simpl List.length.
  replace (Z.of_nat (List.length init + 1) - 1)
    with (Z.of_nat (List.length init)) by lia.
  destruct (Z.ltb_spec (Z.of_nat (List.length init)) 0) as [Hneg | _]; [lia |].
  rewrite Nat2Z.id, nth_error_app2, Nat.sub_diag by lia. reflexivity.
Qed.

Lemma lastOf_nil : lastOf [] = None.
Proof. reflexivity. Qed.

Lemma sliceButLast_snoc {A} (init : list A) (x : A) :
  sliceButLast (init ++ [x]) = init.
Proof.
  unfold sliceButLast. rewrite length_app. simpl List.length.
  replace (Z.to_nat (Z.max (Z.of_nat (List.length init + 1) - 1) 0))
    with (List.length init + 0)%nat by lia.
  rewrite firstn_app_2. simpl. apply app_nil_r.
Qed.

(** C6.  When the last message of the conversation has role "system", the
    request body carries its content in [system] and the conversation
    without that last message in [messages]; when the conversation is empty
    or its last message has another role, [messages] is the conversation
    and [system] is undefined. *)
Theorem trailing_system_message_is_hoisted
  (anthropicModel : string) (conversation : list Message) :
  (forall init m,
     conversation = (init ++ [m])%list -> role m = "system" ->
     requestBodyFor anthropicModel conversation
     = Return (mkRequestBody anthropicModel init (Some (content m)) 500))
  /\
  ((conversation = []
    \/ exists init m, conversation = (init ++ [m])%list /\ role m <> "system") ->
   requestBodyFor anthropicModel conversation
   = Return (mkRequestBody anthropicModel conversation None 500)).
Proof.
  unfold requestBodyFor, lastMessageIsSystem, buildRequestBody. split.
  - intros init m -> Hrole.
    rewrite lastOf_snoc, Hrole, String.eqb_refl, sliceButLast_snoc.
    reflexivity.
  - intros [-> | [init [m [-> Hrole]]]].
    + rewrite lastOf_nil. reflexivity.
    + rewrite lastOf_snoc. apply String.eqb_neq in Hrole. now rewrite Hrole.
Qed.

Lemma trailing_system_message_is_hoisted_witness :
  requestBodyFor "claude"
    [mkMessage "user" "Rate this applicant"; mkMessage "system" "You are a grader"]
  = Return (mkRequestBody "claude" [mkMessage "user" "Rate this applicant"]
              (Some "You are a grader") 500)
  /\ requestBodyFor "claude" [mkMessage "user" "Rate this applicant"]
     = Return (mkRequestBody "claude" [mkMessage "user" "Rate this applicant"]
                 None 500).
Proof.
  split.
  - refine (proj1 (trailing_system_message_is_hoisted "claude"
              [mkMessage "user" "Rate this applicant";
               mkMessage "system" "You are a grader"])
              [mkMessage "user" "Rate this applicant"]
              (mkMessage "system" "You are a grader") _ _); reflexivity.
  - refine (proj2 (trailing_system_message_is_hoisted "claude"
              [mkMessage "user" "Rate this applicant"]) _).
    right. exists [], (mkMessage "user" "Rate this applicant").
    split; [reflexivity | discriminate].
Defined.

(** The request body is always built: the flag is true only for a
    conversation with a last message. *)
Lemma requestBodyFor_returns (anthropicModel : string) (conversation : list Message) :
  exists body, requestBodyFor anthropicModel conversation = Return body.
Proof.
  unfold requestBodyFor, lastMessageIsSystem, buildRequestBody.
  destruct (lastOf conversation) as [m|]; [| now eexists].
  destruct (String.eqb (role m) "system"); now eexists.
Qed.

Lemma handleApiResponse_failure (r : Response) :
  ~ (200 <= status r <= 299) ->
  handleApiResponse r
  = Throw (mkError PlainError
             ("HTTP error calling API: got status " ++ showZ (status r)
              ++ ". Response: " ++ bodyText r)%string).
Proof.
  intros Hbad. unfold handleApiResponse, ok.
  destruct (negb ((200 <=? status r) && (status r <=? 299))
            || (status r >=? 400)) eqn:E; [reflexivity |].
  apply orb_false_iff in E as [E _]. apply negb_false_iff in E.
  apply andb_true_iff in E as [E1 E2]. lia.
Qed.

Lemma apiCall_failure {S} (fetch : RequestBody -> S -> Outcome Response * S)
  (anthropicModel : string) (conversation : list Message) (r : Response) (s : S) :
  ~ (200 <= status r <= 299) ->
  (forall body, fst (fetch body s) = Return r) ->
  fst (apiCall fetch anthropicModel conversation s)
  = Throw (mkError PlainError
             ("HTTP error calling API: got status " ++ showZ (status r)
              ++ ". Response: " ++ bodyText r)%string).
Proof.
  intros Hbad Hfetch. unfold apiCall.
  destruct (requestBodyFor_returns anthropicModel conversation) as [body ->].
  specialize (Hfetch body). destruct (fetch body s) as [o s'].
  simpl in Hfetch. subst o.
  rewrite (handleApiResponse_failure r Hbad). reflexivity.
Qed.

(** Whatever the body says, the statuses 429, 503 and 529 make the error
    overload-class: the message spells "status" before the code. *)
Lemma overload_status_is_overload_class (r : Response) :
  status r = 429 \/ status r = 503 \/ status r = 529 ->
  exists e, handleApiResponse r = Throw e /\ isOverloadedError e = true.
Proof.
  intros Hs. eexists. split.
  - apply handleApiResponse_failure. lia.
  - apply ClassifyFacts.marker_makes_overloaded.
    cbn [message]. rewrite !toLowerCase_app.
    destruct Hs as [-> | [-> | ->]].
    + exists "status 429". split; [simpl; tauto |].
      exists "http error calling api: got ", (". response: " ++ toLowerCase (bodyText r)).
      reflexivity.
    + exists "status 503". split; [simpl; tauto |].
      exists "http error calling api: got ", (". response: " ++ toLowerCase (bodyText r)).
      reflexivity.
    + exists "status 529". split; [simpl; tauto |].
      exists "http error calling api: got ", (". response: " ++ toLowerCase (bodyText r)).
      reflexivity.
Qed.

(** The rendering of a status code: for 0 .. 999 the template literal gives
    the one, two or three decimal digits of the number. *)
Lemma showZ_statusNumeral (n : Z) :
  0 <= n <= 999 -> showZ n = statusNumeral n.
Proof.
  intros Hn.
  assert (H : forallb (fun k : nat =>
                         String.eqb (showZ (Z.of_nat k)) (statusNumeral (Z.of_nat k)))
                      (seq 0 1000) = true) by (vm_compute; reflexivity).
  rewrite forallb_forall in H. specialize (H (Z.to_nat n)).
  rewrite Z2Nat.id in H by lia.
  apply String.eqb_eq, H, in_seq. lia.
Qed.

(** C7.  For a response whose status is outside 200 .. 299,
    [handleApiResponse] throws an error whose message is
    "HTTP error calling API: got status ", the status code, ". Response: "
    and the text of the body as received; for a status 0 .. 999 the code is
    written with its decimal digits ([statusNumeral]).  The API call of the
    adapter throws that error unchanged.  When the network keeps answering
    with that response, [getChatCompletion] ends with that error, provided
    that a retry-after hint of an overload-class error is at most 2^53 ms,
    so that the sleep ends.  For status 529 the error is overload-class
    whatever the body says, so also with the body "overloaded_error". *)
Theorem non_success_response_raises_status_and_body (r : Response) :
  ~ (200 <= status r <= 299) ->
  exists e,
    handleApiResponse r = Throw e
    /\ message e
       = ("HTTP error calling API: got status " ++ showZ (status r)
          ++ ". Response: " ++ bodyText r)%string
    /\ (0 <= status r <= 999 ->
        message e
        = ("HTTP error calling API: got status " ++ statusNumeral (status r)
           ++ ". Response: " ++ bodyText r)%string)
    /\ Substring (showZ (status r)) (message e)
    /\ Substring (bodyText r) (message e)
    /\ (forall (S : Type) (fetch : RequestBody -> S -> Outcome Response * S)
               anthropicModel conversation body (s s' : S),
          requestBodyFor anthropicModel conversation = Return body ->
          fetch body s = (Return r, s') ->
          apiCall fetch anthropicModel conversation s = (Throw e, s'))
    /\ ((isOverloadedError e = true -> safeDelay (extractRetryAfter e)) ->
        forall (S : Type) (fetch : RequestBody -> S -> Outcome Response * S)
               anthropicModel retryStatusCallback conversation (s : S),
          (forall body w, fst (fetch body w) = Return r) ->
          exists w' tr,
            getChatCompletion fetch anthropicModel retryStatusCallback
              conversation s
            = Some (Throw e, w', tr))
    /\ (status r = 529 -> isOverloadedError e = true)
    /\ (status r = 529 -> bodyText r = "overloaded_error" ->
        isOverloadedError e = true).
Proof.
  intros Hbad. eexists. split; [now apply handleApiResponse_failure |].
  cbn [message]. split; [reflexivity |].
  split; [| split; [| split; [| split; [| split; [| split]]]]].
  - intros Hs. now rewrite (showZ_statusNumeral _ Hs).
  - apply Substring_app_r, Substring_app_l, Substring_refl.
  - apply Substring_app_r, Substring_app_r, Substring_app_r, Substring_refl.
  - intros S fetch anthropicModel conversation body s s' Hbody Hfetch.
    unfold apiCall. rewrite Hbody, Hfetch, (handleApiResponse_failure r Hbad).
    reflexivity.
  - intros _ S fetch anthropicModel retryStatusCallback conversation s Hfetch.
    unfold getChatCompletion.
    destruct (LoopFacts.retryWithBackoff_one_class
                (apiCall fetch anthropicModel conversation)
                (mkPartial None None None None (Some retryStatusCallback)) s
                (isOverloadedError
                   (mkError PlainError
                      ("HTTP error calling API: got status "
                       ++ showZ (status r) ++ ". Response: " ++ bodyText r)%string))
                _ eq_refl)
      as (e & tr & Hrun & Hlast & _).
    + intros k. eexists. split; [| reflexivity].
      unfold outcomeAt. apply apiCall_failure; [exact Hbad |].
      intros body. apply Hfetch.
    + unfold outcomeAt in Hlast.
      rewrite (apiCall_failure fetch anthropicModel conversation r _ Hbad) in Hlast
        by (intros body; apply Hfetch).
      injection Hlast as <-. eexists. exists tr. exact Hrun.
  - intros Hs.
    destruct (overload_status_is_overload_class r) as [e' [Hthrow Hov]];
      [right; right; exact Hs |].
    rewrite (handleApiResponse_failure r Hbad) in Hthrow.
    injection Hthrow as <-. exact Hov.
  - intros Hs Hb. rewrite Hs, Hb. reflexivity.
Qed.

Lemma non_success_response_raises_status_and_body_witness :
  exists e,
    handleApiResponse
      (mkResponse 529 "busy" (Throw (mkError SyntaxError "Unexpected token")))
    = Throw e
    /\ message e = "HTTP error calling API: got status 529. Response: busy"
    /\ isOverloadedError e = true.
Proof.
  destruct (non_success_response_raises_status_and_body
              (mkResponse 529 "busy"
                 (Throw (mkError SyntaxError "Unexpected token"))))
    as [e [Hthrow [_ [Hmsg [_ [_ [_ [_ [Hov _]]]]]]]]].
  - simpl. lia.
  - exists e. split; [exact Hthrow |]. split.
    + apply Hmsg. simpl. lia.
    + apply Hov. reflexivity.
Defined.

End AnthropicFacts.

(* ================================================================== *)
(** ** The rate limiter *)
(* ================================================================== *)

Module GovernorFacts.
Import JsArray Governor.
Local Open Scope list_scope.

Lemma removeFirst_length (t : TaskId) (l : list TaskId) :
  existsb (Nat.eqb t) l = true ->
  Datatypes.S (List.length (removeFirst t l)) = List.length l.
Proof.
  induction l as [|x l IH]; simpl; [discriminate |].
  destruct (Nat.eqb t x); simpl; [reflexivity |].
  intros H. now rewrite (IH H).
Qed.

Lemma enqueue_bounded (t : TaskId) (g : Gate) :
  gateBounded g -> gateBounded (enqueue t g).
Proof.
  unfold gateBounded, enqueue. intros Hg.
  destruct (Z.ltb_spec (Z.of_nat (List.length (active g))) (concurrency g));
    simpl; [| exact Hg].
  rewrite length_app. simpl. lia.
Qed.

Lemma release_bounded (t : TaskId) (g : Gate) :
  gateBounded g -> gateBounded (release t g).
Proof.
  unfold gateBounded, release. intros Hg.
  destruct (existsb (Nat.eqb t) (active g)) eqn:E; [| exact Hg].
  pose proof (removeFirst_length t (active g) E) as Hlen.
  destruct (pending g); simpl; [lia |].
  rewrite length_app. simpl. lia.
Qed.

Lemma enqueue_concurrency (t : TaskId) (g : Gate) :
  concurrency (enqueue t g) = concurrency g.
Proof.
  unfold enqueue.
  now destruct (Z.of_nat (List.length (active g)) <? concurrency g).
Qed.

Lemma release_concurrency (t : TaskId) (g : Gate) :
  concurrency (release t g) = concurrency g.
Proof.
  unfold release. destruct (existsb (Nat.eqb t) (active g)); [| reflexivity].
  now destruct (pending g).
Qed.

(** A task that holds a slot keeps it when another task arrives. *)
Lemma enqueue_keeps_active (t : TaskId) (g : Gate) (x : TaskId) :
  In x (active g) -> In x (active (enqueue t g)).
Proof.
  unfold enqueue. intros Hx.
  destruct (Z.of_nat (List.length (active g)) <? concurrency g); simpl;
    [apply in_or_app; now left | exact Hx].
Qed.

Lemma nth_error_setAt_same {A} (l : list A) (i : nat) (x y : A) :
  nth_error l i = Some y -> nth_error (setAt l i x) i = Some x.
Proof.
  revert i. induction l as [|a l IH]; intros [|i]; simpl; try discriminate.
  - reflexivity.
  - apply IH.
Qed.

Lemma nth_error_setAt_other {A} (l : list A) (i j : nat) (x : A) :
  i <> j -> nth_error (setAt l i x) j = nth_error l j.
Proof.
  revert i j. induction l as [|a l IH]; intros [|i] [|j] Hij; simpl;
    try reflexivity; try congruence.
  apply IH. congruence.
Qed.

Lemma Forall_setAt {A} (P : A -> Prop) (l : list A) (i : nat) (x : A) :
  Forall P l -> P x -> Forall P (setAt l i x).
Proof.
  intros Hl Hx. revert i. induction Hl as [|a l Ha Hl IH]; intros [|i]; simpl;
    constructor; auto.
Qed.

Lemma pLimit_returns (c : Z) :
  1 <= c -> pLimit c = Return (mkGate c [] []).
Proof. unfold pLimit. intros H. destruct (Z.leb_spec 1 c); [reflexivity | lia]. Qed.

Lemma pLimit_throws (c : Z) :
  c < 1 -> exists e, pLimit c = Throw e.
Proof.
  unfold pLimit. intros H. destruct (Z.leb_spec 1 c); [lia | now eexists].
Qed.

Lemma pLimit_bounded (c : Z) (g : Gate) :
  pLimit c = Return g -> gateBounded g /\ concurrency g = c /\ active g = [].
Proof.
  unfold pLimit. destruct (Z.leb_spec 1 c); [| discriminate].
  intros [= <-]. unfold gateBounded. simpl. repeat split. lia.
Qed.

(** [updateRateLimit] leaves the module state alone when the setting is the
    cached one, and otherwise appends a fresh gate for the setting and makes
    it the current one. *)
Lemma updateRateLimit_same (w : World) :
  configured w = lastConcurrency w ->
  updateRateLimit w = (Return (globalRateLimit w), w).
Proof.
  unfold updateRateLimit. intros ->. now rewrite Z.eqb_refl.
Qed.

Lemma updateRateLimit_changed (w : World) :
  configured w <> lastConcurrency w -> 1 <= configured w ->
  updateRateLimit w
  = (Return (List.length (gates w)),
     mkWorld (configured w) (gates w ++ [mkGate (configured w) [] []])
             (List.length (gates w)) (configured w)).
Proof.
  unfold updateRateLimit. intros Hne Hok.
  apply Z.eqb_neq in Hne. rewrite Hne, (pLimit_returns _ Hok). reflexivity.
Qed.

Lemma updateRateLimit_refused (w : World) :
  configured w <> lastConcurrency w -> configured w < 1 ->
  exists e, updateRateLimit w = (Throw e, w).
Proof.
  unfold updateRateLimit. intros Hne Hbad.
  apply Z.eqb_neq in Hne. rewrite Hne.
  destruct (pLimit_throws _ Hbad) as [e ->]. now exists e.
Qed.

Lemma updateRateLimit_inv (w : World) :
  Inv w ->
  Inv (snd (updateRateLimit w))
  /\ forall i, fst (updateRateLimit w) = Return i ->
               i = globalRateLimit (snd (updateRateLimit w)).
Proof.
  intros [Hb Hc].
  destruct (Z.eq_dec (configured w) (lastConcurrency w)) as [Heq | Hne].
  - rewrite (updateRateLimit_same w Heq). simpl. split; [now split |].
    now intros i [= <-].
  - destruct (Z_le_gt_dec 1 (configured w)) as [Hok | Hbad].
    + rewrite (updateRateLimit_changed w Hne Hok). simpl. split.
      * split; simpl.
        -- apply Forall_app. split; [exact Hb |].
           constructor; [| constructor]. unfold gateBounded. simpl. lia.
        -- exists (mkGate (configured w) [] []). simpl.
           rewrite nth_error_app2, Nat.sub_diag by lia. now split.
      * now intros i [= <-].
    + destruct (updateRateLimit_refused w Hne) as [e ->]; [lia |].
      simpl. split; [now split | discriminate].
Qed.

Lemma dispatch_inv (t : TaskId) (w : World) : Inv w -> Inv (dispatch t w).
Proof.
  intros Hw. unfold dispatch.
  destruct (updateRateLimit_inv w Hw) as [[Hb [g [Hg Hgc]]] Hidx].
  destruct (updateRateLimit w) as [[i | e] w']; simpl in *;
    [| split; [exact Hb | now exists g]].
  rewrite (Hidx i eq_refl), Hg. split; simpl.
  - apply Forall_setAt; [exact Hb |]. apply enqueue_bounded.
    rewrite Forall_forall in Hb. apply Hb. eapply nth_error_In, Hg.
  - exists (enqueue t g). simpl.
    rewrite (nth_error_setAt_same _ _ _ g Hg), enqueue_concurrency.
    now split.
Qed.

Lemma step_inv (w : World) (a : Action) : Inv w -> Inv (step w a).
Proof.
  intros Hw. destruct a as [c | t | t]; simpl.
  - exact Hw.
  - now apply dispatch_inv.
  - destruct Hw as [Hb [g [Hg Hgc]]]. split; simpl.
    + apply Forall_map. rewrite Forall_forall in *.
      intros x Hx. apply release_bounded, Hb, Hx.
    + exists (release t g). simpl.
      rewrite nth_error_map, Hg, release_concurrency. now split.
Qed.

Lemma run_inv (actions : list Action) :
  forall w, Inv w -> Inv (run w actions).
Proof.
  unfold run. induction actions as [|a actions IH]; intros w Hw; simpl;
    [exact Hw |].
  apply IH, step_inv, Hw.
Qed.

Lemma load_inv (c : Z) (w : World) : load c = Return w -> Inv w.
Proof.
  unfold load. destruct (pLimit c) as [g | e] eqn:E; [| discriminate].
  intros [= <-]. destruct (pLimit_bounded c g E) as [Hb [Hc _]].
  split; simpl.
  - constructor; [exact Hb | constructor].
  - exists g. now split.
Qed.

(** A dispatch leaves every gate that exists its limit and the tasks that
    hold its slots. *)
Lemma dispatch_keeps_slots (t : TaskId) (w : World) (i : nat) (g : Gate) :
  nth_error (gates w) i = Some g ->
  exists g', nth_error (gates (dispatch t w)) i = Some g'
             /\ concurrency g' = concurrency g
             /\ forall x, In x (active g) -> In x (active g').
Proof.
  intros Hg. unfold dispatch.
  assert (Hkept : nth_error (gates (snd (updateRateLimit w))) i = Some g).
  { unfold updateRateLimit.
    destruct (negb (configured w =? lastConcurrency w)); [| exact Hg].
    destruct (pLimit (configured w)); simpl; [| exact Hg].
    rewrite nth_error_app1; [exact Hg |].
    apply nth_error_Some. congruence. }
  destruct (updateRateLimit w) as [[j | e] w']; simpl in *;
    [| exists g; now repeat split].
  destruct (nth_error (gates w') j) as [gj|] eqn:Ej;
    [| exists g; now repeat split].
  simpl. destruct (Nat.eq_dec j i) as [-> | Hji].
  - rewrite Hkept in Ej. injection Ej as <-.
    exists (enqueue t g). rewrite (nth_error_setAt_same _ _ _ g Hkept).
    split; [reflexivity |]. split; [apply enqueue_concurrency |].
    intros x. apply enqueue_keeps_active.
  - exists g. rewrite (nth_error_setAt_other _ _ _ _ Hji). now repeat split.
Qed.

Lemma load_single (c : Z) (w : World) : load c = Return w -> SingleGate c w.
Proof.
  unfold load. destruct (pLimit c) as [g | e] eqn:E; [| discriminate].
  intros [= <-]. destruct (pLimit_bounded c g E) as [Hb [Hc _]].
  exists g. simpl. now repeat split.
Qed.

Lemma run_single (c : Z) (actions : list Action) :
  forall w, settingUntouched actions = true ->
            SingleGate c w -> SingleGate c (run w actions).
Proof.
  unfold run, settingUntouched.
  induction actions as [|a actions IH]; intros w Hun Hw; simpl in *;
    [exact Hw |].
  apply andb_true_iff in Hun as [Ha Hun]. apply IH; [exact Hun |].
  destruct Hw as (g & Hg & Hb & Hc & Hcfg & Hlast & Hcur).
  destruct a as [c' | t | t]; simpl in *; [discriminate | |].
  - unfold dispatch. rewrite updateRateLimit_same by congruence.
    rewrite Hcur, Hg. simpl.
    exists (enqueue t g). simpl. repeat split; try assumption.
    + now apply enqueue_bounded.
    + now rewrite enqueue_concurrency.
  - exists (release t g). simpl. rewrite Hg. simpl. repeat split; try assumption.
    + now apply release_bounded.
    + now rewrite release_concurrency.
Qed.

(** C8, as stated, fails: with the limit 1 one task holds a slot; the
    setting becomes 2, the next call builds a gate of limit 2 and two more
    tasks get slots.  Three tasks hold a slot at once and the configured
    limit is 2. *)
Lemma rebuilt_gate_adds_to_old_slots :
  exists w0,
    load 1 = Return w0
    /\ configured
         (run w0 [Dispatch 1%nat; SetConcurrency 2; Dispatch 2%nat; Dispatch 3%nat]) = 2
    /\ holders
         (run w0 [Dispatch 1%nat; SetConcurrency 2; Dispatch 2%nat; Dispatch 3%nat]) = 3%nat
    /\ ~ (Z.of_nat
            (holders
               (run w0 [Dispatch 1%nat; SetConcurrency 2; Dispatch 2%nat; Dispatch 3%nat]))
          <= configured
               (run w0 [Dispatch 1%nat; SetConcurrency 2; Dispatch 2%nat; Dispatch 3%nat])).
Proof.
  eexists. split; [reflexivity |]. split; [reflexivity |].
  split; [reflexivity |]. vm_compute. intros H. now apply H.
Qed.

(** C8, amended.  At every moment each gate has at most as many holders as
    the limit it was built with, and the gate in use was built with the
    cached limit; while the setting does not change, the holders are at most
    the configured limit.  A call of [updateRateLimit] keeps the gate when
    the setting equals the cached value and, for a setting of at least 1
    that differs, builds a fresh gate with the setting and makes it the
    current one.  A dispatch leaves every existing gate its limit and the
    tasks holding its slots. *)
Theorem each_gate_admits_at_most_its_limit
  (c0 : Z) (w0 : World) (actions : list Action) :
  load c0 = Return w0 ->
  Forall (fun g => Z.of_nat (List.length (active g)) <= concurrency g)
         (gates (run w0 actions))
  /\ (exists g,
        nth_error (gates (run w0 actions)) (globalRateLimit (run w0 actions))
        = Some g
        /\ concurrency g = lastConcurrency (run w0 actions))
  /\ (settingUntouched actions = true ->
      Z.of_nat (holders (run w0 actions)) <= configured (run w0 actions))
  /\ (configured (run w0 actions) = lastConcurrency (run w0 actions) ->
      updateRateLimit (run w0 actions)
      = (Return (globalRateLimit (run w0 actions)), run w0 actions))
  /\ (configured (run w0 actions) <> lastConcurrency (run w0 actions) ->
      1 <= configured (run w0 actions) ->
      updateRateLimit (run w0 actions)
      = (Return (List.length (gates (run w0 actions))),
         mkWorld (configured (run w0 actions))
                 (gates (run w0 actions)
                    ++ [mkGate (configured (run w0 actions)) [] []])
                 (List.length (gates (run w0 actions)))
                 (configured (run w0 actions))))
  /\ (forall t i g,
        nth_error (gates (run w0 actions)) i = Some g ->
        exists g',
          nth_error (gates (dispatch t (run w0 actions))) i = Some g'
          /\ concurrency g' = concurrency g
          /\ forall x, In x (active g) -> In x (active g')).
Proof.
  intros Hload.
  destruct (run_inv actions w0 (load_inv c0 w0 Hload)) as [Hb Hc].
  split; [exact Hb |]. split; [exact Hc |]. split; [| split; [| split]].
  - intros Hun.
    destruct (run_single c0 actions w0 Hun (load_single c0 w0 Hload))
      as (g & Hg & Hgb & Hgc & Hcfg & _).
    unfold holders. rewrite Hg, Hcfg. simpl. unfold gateBounded in Hgb. lia.
  - apply updateRateLimit_same.
  - apply updateRateLimit_changed.
  - intros t i g. apply dispatch_keeps_slots.
Qed.

Lemma each_gate_admits_at_most_its_limit_witness :
  Forall (fun g => Z.of_nat (List.length (active g)) <= concurrency g)
         (gates (run (mkWorld 1 [mkGate 1 [] []] 0 1)
                   [Dispatch 1%nat; SetConcurrency 2; Dispatch 2%nat; Dispatch 3%nat])).
Proof.
  refine (proj1 (each_gate_admits_at_most_its_limit 1
                   (mkWorld 1 [mkGate 1 [] []] 0 1)
                   [Dispatch 1%nat; SetConcurrency 2; Dispatch 2%nat; Dispatch 3%nat] _)).
  reflexivity.
Defined.

End GovernorFacts.


(* ================================================================== *)
(** ** The status callback and the delays *)
(* ================================================================== *)

Module PolicyFacts.
Import JsString JsStringFacts JsArray Retry RetryTrace LoopFacts RunFacts RegexFacts.
Local Open Scope list_scope.

Lemma digitValue_range (c : ascii) :
  isDigit c = true -> 0 <= digitValue c <= 9.
Proof.
  unfold isDigit, digitValue. intros H.
  apply andb_true_iff in H as [H1 H2].
  apply N.leb_le in H1, H2. lia.
Qed.

Lemma parseDigits_nonneg (ds : string) :
  allChars isDigit ds = true ->
  forall acc, 0 <= acc -> 0 <= parseDigits acc ds.
Proof.
  induction ds as [|c ds IH]; simpl; intros Hall acc Hacc; [exact Hacc |].
  apply andb_true_iff in Hall as [Hc Hds].
  apply IH; [exact Hds |]. pose proof (digitValue_range c Hc). lia.
Qed.

Lemma extractRetryAfter_nonneg (e : Error) (d : Z) :
  extractRetryAfter e = Some d -> 0 <= d.
Proof.
  unfold extractRetryAfter.
  destruct (matchRetryAfter (message e)) as [ds|] eqn:Em; [| discriminate].
  intros [= <-].
  apply matchRetryAfter_spec in Em as (pre & rest & _ & Hh & _).
  destruct Hh as (w1 & c & w2 & gap & post & _ & _ & _ & _ & _ & _ & _ & Hd & _).
  pose proof (parseDigits_nonneg ds Hd 0 ltac:(lia)) as Hnn.
  fold (parseInt ds) in Hnn. lia.
Qed.

(** X6.  A delay of at most 2^53 ms that [extractRetryAfter] reads from a
    message is never negative and is a whole number of seconds. *)
Theorem extracted_delay_is_whole_seconds (e : Error) (d : Z) :
  extractRetryAfter e = Some d ->
  d <= 2 ^ 53 ->
  0 <= d /\ exists seconds, 0 <= seconds /\ d = seconds * 1000.
Proof.
  unfold extractRetryAfter.
  destruct (matchRetryAfter (message e)) as [ds|] eqn:Em; [| discriminate].
  intros [= <-] _.
  apply matchRetryAfter_spec in Em as (pre & rest & _ & Hh & _).
  destruct Hh as (w1 & c & w2 & gap & post & _ & _ & _ & _ & _ & _ & _ & Hd & _).
  pose proof (parseDigits_nonneg ds Hd 0 ltac:(lia)) as Hnn.
  fold (parseInt ds) in Hnn. split; [lia |].
  exists (parseInt ds). split; [exact Hnn | reflexivity].
Qed.

Lemma extracted_delay_is_whole_seconds_witness :
  0 <= 30000 /\ exists seconds, 0 <= seconds /\ 30000 = seconds * 1000.
Proof.
  refine (extracted_delay_is_whole_seconds
            (mkError PlainError "Rate limit hit. Retry-After: 30") 30000 _ _).
  - reflexivity.
  - vm_compute. discriminate.
Defined.

Lemma index_in_range {A} (l : list A) (i : Z) :
  0 <= i < Z.of_nat (List.length l) ->
  exists x, index l i = Some x /\ In x l.
Proof.
  intros Hi. unfold index.
  destruct (Z.ltb_spec i 0) as [Hneg | _]; [lia |].
  destruct (nth_error l (Z.to_nat i)) as [x|] eqn:E.
  - exists x. split; [reflexivity |]. eapply nth_error_In, E.
  - apply nth_error_None in E. lia.
Qed.

(** X7.  For an overload-class error and an attempt number of at least 1,
    a schedule that is not empty always gives a delay: an entry of the
    schedule, or the hint of the message when that is not 0.  With an empty
    schedule and no usable hint the delay is undefined. *)
Theorem overload_delay_comes_from_schedule_or_hint
  (cfg : RetryConfig) (e : Error) (attemptNumber : Z) :
  isOverloadedError e = true ->
  1 <= attemptNumber ->
  (overloadBackoffDelays cfg <> [] ->
   exists d, chooseDelay cfg e attemptNumber = Some d
             /\ (In d (overloadBackoffDelays cfg)
                 \/ (extractRetryAfter e = Some d /\ 0 < d)))
  /\ (overloadBackoffDelays cfg = [] ->
      extractRetryAfter e = None \/ extractRetryAfter e = Some 0 ->
      chooseDelay cfg e attemptNumber = None).
Proof.
  intros Hov Hn. unfold chooseDelay. rewrite Hov. split.
  - intros Hne.
    destruct (index_in_range (overloadBackoffDelays cfg)
                (Z.min (attemptNumber - 1)
                   (Z.of_nat (List.length (overloadBackoffDelays cfg)) - 1)))
      as [x [Hx Hin]].
    { destruct (overloadBackoffDelays cfg); [contradiction |].
      cbn [List.length]. lia. }
    destruct (extractRetryAfter e) as [ra|] eqn:Era.
    + destruct (Z.eqb_spec ra 0) as [Hz | Hnz].
      * exists x. split; [exact Hx | now left].
      * exists ra. split; [reflexivity |]. right. split; [reflexivity |].
        pose proof (extractRetryAfter_nonneg e ra Era). lia.
    + exists x. split; [exact Hx | now left].
  - intros Hnil Hhint. rewrite Hnil. cbn [List.length].
    replace (Z.min (attemptNumber - 1) (Z.of_nat 0 - 1)) with (-1) by lia.
    destruct Hhint as [-> | ->]; reflexivity.
Qed.

Lemma overload_delay_comes_from_schedule_or_hint_witness :
  chooseDelay
    (mkRetryConfig 5 [] 3 1000 false)
    (mkError PlainError "HTTP error calling API: got status 529. Response: busy") 1
  = None.
Proof.
  refine (proj2 (overload_delay_comes_from_schedule_or_hint
            (mkRetryConfig 5 [] 3 1000 false)
            (mkError PlainError "HTTP error calling API: got status 529. Response: busy")
            1 _ _) _ _).
  - reflexivity.
  - lia.
  - reflexivity.
  - left. reflexivity.
Defined.

End PolicyFacts.

(* ================================================================== *)
(** ** The adapter as a whole *)
(* ================================================================== *)

Module AdapterFacts.
Import JsString JsStringFacts JsArray Retry RetryTrace LoopFacts RunFacts.
Import Anthropic AnthropicConstants AnthropicFacts.
Local Open Scope list_scope.

(** X8.  [handleApiResponse] returns only for a status in 200 .. 299.  For
    such a status it returns the text of the first content item when the
    envelope has one with a text, passes on the error of [response.json()]
    when the body is not JSON, and throws a TypeError when the content list
    is empty. *)
Theorem response_text_needs_success_and_content (r : Response) :
  (forall t, handleApiResponse r = Return t -> 200 <= status r <= 299)
  /\ (200 <= status r <= 299 ->
      (forall t rest, json r = Return (t :: rest) ->
                      handleApiResponse r = Return t)
      /\ (forall e, json r = Throw e -> handleApiResponse r = Throw e)
      /\ (json r = Return [] ->
          exists e, handleApiResponse r = Throw e /\ kind e = TypeError)).
Proof.
  unfold handleApiResponse, ok. split.
  - intros t.
    destruct (Z.leb_spec 200 (status r)), (Z.leb_spec (status r) 299);
      cbn [andb negb orb]; try discriminate.
    intros _. lia.
  - intros Hs.
    destruct (Z.leb_spec 200 (status r)); [| lia].
    destruct (Z.leb_spec (status r) 299); [| lia].
    destruct (Z.geb_spec (status r) 400); [lia |].
    cbn [andb negb orb]. split; [| split].
    + intros t rest Hj. now rewrite Hj.
    + intros e Hj. now rewrite Hj.
    + intros Hj. rewrite Hj. eexists. split; reflexivity.
Qed.

Lemma response_text_needs_success_and_content_witness :
  handleApiResponse (mkResponse 200 "" (Return ["FINAL_RANKING = 4"%string]))
  = Return "FINAL_RANKING = 4"%string.
Proof.
  refine (proj1 (proj2 (response_text_needs_success_and_content
                          (mkResponse 200 "" (Return ["FINAL_RANKING = 4"%string])))
                   _) "FINAL_RANKING = 4"%string [] _).
  - simpl. lia.
  - reflexivity.
Defined.

Lemma apiCall_cases {S} (fetch : RequestBody -> S -> Outcome Response * S)
  (anthropicModel : string) (conversation : list Message) (s : S) :
  exists body,
    requestBodyFor anthropicModel conversation = Return body
    /\ apiCall fetch anthropicModel conversation s
       = match fetch body s with
         | (Return response, s') =>
             match handleApiResponse response with
             | Return text => (Return text, s')
             | Throw error =>
                 if isTypeError error && includes "Failed to fetch" (message error)
                 then (Throw connectivityError, s')
                 else (Throw error, s')
             end
         | (Throw error, s') =>
             if isTypeError error && includes "Failed to fetch" (message error)
             then (Throw connectivityError, s')
             else (Throw error, s')
         end.
Proof.
  destruct (requestBodyFor_returns anthropicModel conversation) as [body Hbody].
  exists body. split; [exact Hbody |]. unfold apiCall. rewrite Hbody.
  destruct (fetch body s) as [[response | error] s']; [| reflexivity].
  destruct (handleApiResponse response); reflexivity.
Qed.

(** X9.  The API call never lets a [TypeError] that says "Failed to fetch"
    out: it throws the connectivity error in its place.  Every other error
    of the network goes through unchanged. *)
Theorem failed_to_fetch_never_escapes {S}
  (fetch : RequestBody -> S -> Outcome Response * S)
  (anthropicModel : string) (conversation : list Message) (s : S) :
  (forall e, fst (apiCall fetch anthropicModel conversation s) = Throw e ->
     isTypeError e && includes "Failed to fetch" (message e) = false)
  /\ (forall body e s',
        requestBodyFor anthropicModel conversation = Return body ->
        fetch body s = (Throw e, s') ->
        apiCall fetch anthropicModel conversation s
        = (Throw (if isTypeError e && includes "Failed to fetch" (message e)
                  then connectivityError else e), s')).
Proof.
  destruct (apiCall_cases fetch anthropicModel conversation s)
    as [body [Hbody Hcall]].
  split.
  - intros e. rewrite Hcall.
    destruct (fetch body s) as [[response | error] s'].
    + destruct (handleApiResponse response) as [text | error];
        [discriminate |].
      destruct (isTypeError error && includes "Failed to fetch" (message error))
        eqn:E; cbn; intros [= <-]; [reflexivity | exact E].
    + destruct (isTypeError error && includes "Failed to fetch" (message error))
        eqn:E; cbn; intros [= <-]; [reflexivity | exact E].
  - intros body' e s' Hbody' Hfetch. rewrite Hbody in Hbody'.
    injection Hbody' as <-. rewrite Hcall, Hfetch.
    now destruct (isTypeError e && includes "Failed to fetch" (message e)).
Qed.

Lemma failed_to_fetch_never_escapes_witness :
  apiCall (fun (_ : RequestBody) (s : unit) =>
             (@Throw Response (mkError TypeError "Failed to fetch"), s))
    "claude" [mkMessage "user" "hi"] tt
  = (Throw connectivityError, tt).
Proof.
  refine (proj2 (failed_to_fetch_never_escapes
            (fun (_ : RequestBody) (s : unit) =>
               (@Throw Response (mkError TypeError "Failed to fetch"), s))
            "claude" [mkMessage "user" "hi"] tt)
            (mkRequestBody "claude" [mkMessage "user" "hi"] None 500)
            (mkError TypeError "Failed to fetch") tt _ _); reflexivity.
Defined.

Lemma sleeps_of_three (l : list (option Z)) (a b c : option Z) :
  List.length l = 3%nat ->
  nth_error l 0 = Some a -> nth_error l 1 = Some b -> nth_error l 2 = Some c ->
  l = [a; b; c].
Proof.
  destruct l as [|x [|y [|z [|u l]]]]; try discriminate.
  cbn. now intros _ [= ->] [= ->] [= ->].
Qed.

Lemma sleeps_of_five (l : list (option Z)) (a b c d e : option Z) :
  List.length l = 5%nat ->
  nth_error l 0 = Some a -> nth_error l 1 = Some b -> nth_error l 2 = Some c ->
  nth_error l 3 = Some d -> nth_error l 4 = Some e ->
  l = [a; b; c; d; e].
Proof.
  destruct l as [|x1 [|x2 [|x3 [|x4 [|x5 [|x6 l]]]]]]; try discriminate.
  cbn. now intros _ [= ->] [= ->] [= ->] [= ->] [= ->].
Qed.

(** A function that throws the same error on every call: the run ends with
    that error, and each sleep is the delay of that error for its attempt
    number. *)
Lemma constant_failure_run {S T} (fn : S -> Outcome T * S)
  (config : PartialRetryConfig) (s : S) (e : Error) :
  (forall w, fst (fn w) = Throw e) ->
  exists w tr,
    retryWithBackoff fn config s = Some (Throw e, w, tr)
    /\ retries tr = Z.to_nat (maxRetriesFor (fullConfig config) e)
    /\ calls tr = Datatypes.S (retries tr)
    /\ List.length (sleeps tr) = retries tr
    /\ forall j, (j < retries tr)%nat ->
         nth_error (sleeps tr) j
         = Some (chooseDelay (fullConfig config) e (Z.of_nat j + 1)).
Proof.
  intros Hfn.
  destruct (retryWithBackoff_one_class fn config s (isOverloadedError e)
              (maxRetriesFor (fullConfig config) e) eq_refl)
    as (e' & tr & Hrun & Hlast & _ & Hr & _).
  { intros k. exists e. split; [apply Hfn | reflexivity]. }
  unfold outcomeAt in Hlast. rewrite Hfn in Hlast. injection Hlast as <-.
  destruct (retryLoop_shape (fullConfig config) fn _ s 0 _ _ tr Hrun)
    as (Hcalls & Hlen & _ & _ & _ & Hbefore & _).
  eexists. exists tr. split; [exact Hrun |]. split; [exact Hr |].
  split; [exact Hcalls |]. split; [exact Hlen |].
  intros j Hj. destruct (Hbefore j Hj) as [e' [He' [_ Hnth]]].
  unfold outcomeAt in He'. rewrite Hfn in He'. injection He' as <-.
  exact Hnth.
Qed.

(** X10.  When every request fails in the network with a [TypeError] that
    says "Failed to fetch", [getChatCompletion] makes four calls, sleeps
    1000, 2000 and 4000 ms between them and throws the connectivity
    error. *)
Theorem unreachable_network_gives_connectivity_error {S}
  (fetch : RequestBody -> S -> Outcome Response * S)
  (anthropicModel : string) (retryStatusCallback : bool)
  (conversation : list Message) (s : S) :
  (forall body w,
     exists e, fst (fetch body w) = Throw e
               /\ isTypeError e = true
               /\ includes "Failed to fetch" (message e) = true) ->
  exists w tr,
    getChatCompletion fetch anthropicModel retryStatusCallback conversation s
    = Some (Throw connectivityError, w, tr)
    /\ calls tr = 4%nat
    /\ sleeps tr = [Some 1000; Some 2000; Some 4000].
Proof.
  intros Hnet. unfold getChatCompletion.
  destruct (constant_failure_run (apiCall fetch anthropicModel conversation)
              (mkPartial None None None None (Some retryStatusCallback)) s
              connectivityError)
    as (w & tr & Hrun & Hr & Hcalls & Hlen & Hnth).
  { intros w.
    destruct (apiCall_cases fetch anthropicModel conversation w)
      as [body [_ ->]].
    destruct (Hnet body w) as [e [He [Hk Hm]]].
    destruct (fetch body w) as [o w']. cbn in He. subst o.
    now rewrite Hk, Hm. }
  change (Z.to_nat (maxRetriesFor _ connectivityError)) with 3%nat in Hr.
  rewrite Hr in *. exists w, tr. split; [exact Hrun |].
  split; [exact Hcalls |].
  apply sleeps_of_three; [exact Hlen | | |]; rewrite Hnth by lia; reflexivity.
Qed.

Lemma unreachable_network_gives_connectivity_error_witness :
  exists w tr,
    getChatCompletion
      (fun (_ : RequestBody) (s : unit) =>
         (@Throw Response (mkError TypeError "Failed to fetch"), s))
      "claude" false [mkMessage "user" "hi"] tt
    = Some (Throw connectivityError, w, tr)
    /\ calls tr = 4%nat
    /\ sleeps tr = [Some 1000; Some 2000; Some 4000].
Proof.
  refine (unreachable_network_gives_connectivity_error
            (fun (_ : RequestBody) (s : unit) =>
               (@Throw Response (mkError TypeError "Failed to fetch"), s))
            "claude" false [mkMessage "user" "hi"] tt _).
  intros body w. exists (mkError TypeError "Failed to fetch").
  repeat split.
Defined.

(** X11.  When the first response has a status in 200 .. 299 and a first
    content item, [getChatCompletion] returns the text of that item after
    one call, without a sleep and without a call of the status callback. *)
Theorem first_success_returns_at_once {S}
  (fetch : RequestBody -> S -> Outcome Response * S)
  (anthropicModel : string) (retryStatusCallback : bool)
  (conversation : list Message) (s s' : S)
  (body : RequestBody) (r : Response) (t : string) (rest : list string) :
  requestBodyFor anthropicModel conversation = Return body ->
  fetch body s = (Return r, s') ->
  200 <= status r <= 299 ->
  json r = Return (t :: rest) ->
  getChatCompletion fetch anthropicModel retryStatusCallback conversation s
  = Some (Return t, s', [EvCall None]).
Proof.
  intros Hbody Hfetch Hs Hj.
  assert (Hr : handleApiResponse r = Return t).
  { unfold handleApiResponse, ok.
    destruct (Z.leb_spec 200 (status r)); [| lia].
    destruct (Z.leb_spec (status r) 299); [| lia].
    destruct (Z.geb_spec (status r) 400); [lia |].
    cbn. now rewrite Hj. }
  unfold getChatCompletion, retryWithBackoff, enoughFuel. cbn [retryLoop].
  unfold apiCall. rewrite Hbody, Hfetch, Hr.
  now rewrite andb_false_r.
Qed.

Lemma first_success_returns_at_once_witness :
  getChatCompletion
    (fun (_ : RequestBody) (s : unit) =>
       (Return (mkResponse 200 "" (Return ["FINAL_RANKING = 4"])), s))
    "claude" true [mkMessage "user" "hi"] tt
  = Some (Return "FINAL_RANKING = 4", tt, [EvCall None]).
Proof.
  refine (first_success_returns_at_once
            (fun (_ : RequestBody) (s : unit) =>
               (Return (mkResponse 200 "" (Return ["FINAL_RANKING = 4"])), s))
            "claude" true [mkMessage "user" "hi"] tt tt
            (mkRequestBody "claude" [mkMessage "user" "hi"] None 500)
            (mkResponse 200 "" (Return ["FINAL_RANKING = 4"]))
            "FINAL_RANKING = 4" [] _ _ _ _).
  - reflexivity.
  - reflexivity.
  - simpl. lia.
  - reflexivity.
Defined.

(** X12.  A request body is built for every conversation, with the
    configured model and 500 for [max_tokens], and nothing of the
    conversation is lost: without [system] the messages are the
    conversation, and with [system] the conversation is the messages
    followed by one message of role "system" with that content. *)
Theorem request_body_keeps_the_conversation
  (anthropicModel : string) (conversation : list Message) :
  exists body,
    requestBodyFor anthropicModel conversation = Return body
    /\ model body = anthropicModel
    /\ max_tokens body = 500
    /\ match system body with
       | None => messages body = conversation
       | Some c =>
           exists m, conversation = messages body ++ [m]
                     /\ role m = "system" /\ content m = c
       end.
Proof.
  unfold requestBodyFor, lastMessageIsSystem, buildRequestBody.
  induction conversation as [|m init _] using rev_ind.
  - eexists. rewrite lastOf_nil. split; [reflexivity |]. now repeat split.
  - rewrite lastOf_snoc.
    destruct (String.eqb_spec (role m) "system") as [Hsys | Hother].
    + eexists. split; [reflexivity |]. cbn. split; [reflexivity |].
      split; [reflexivity |]. exists m. rewrite sliceButLast_snoc.
      now repeat split.
    + eexists. split; [reflexivity |]. now repeat split.
Qed.

(** X13.  When every request is answered with status 429, 503 or 529 by a
    response whose error message has no retry-after hint,
    [getChatCompletion] makes six calls, sleeps 10000, 20000, 40000, 60000
    and 60000 ms between them and throws the error of that response. *)
Theorem overloaded_service_is_tried_six_times {S}
  (fetch : RequestBody -> S -> Outcome Response * S)
  (anthropicModel : string) (retryStatusCallback : bool)
  (conversation : list Message) (s : S) (r : Response) :
  status r = 429 \/ status r = 503 \/ status r = 529 ->
  NoHint (message (httpError (status r) (bodyText r))) ->
  (forall body w, fst (fetch body w) = Return r) ->
  exists w tr,
    getChatCompletion fetch anthropicModel retryStatusCallback conversation s
    = Some (Throw (httpError (status r) (bodyText r)), w, tr)
    /\ calls tr = 6%nat
    /\ sleeps tr
       = [Some 10000; Some 20000; Some 40000; Some 60000; Some 60000].
Proof.
  intros Hstatus Hno Hnet. unfold getChatCompletion.
  assert (Hov : isOverloadedError (httpError (status r) (bodyText r)) = true).
  { destruct (overload_status_is_overload_class r Hstatus) as [e [He Hov]].
    rewrite handleApiResponse_failure in He by lia. injection He as <-.
    exact Hov. }
  destruct (constant_failure_run (apiCall fetch anthropicModel conversation)
              (mkPartial None None None None (Some retryStatusCallback)) s
              (httpError (status r) (bodyText r)))
    as (w & tr & Hrun & Hr & Hcalls & Hlen & Hnth).
  { intros w. apply apiCall_failure; [lia |]. intros body. apply Hnet. }
  assert (Hcap : maxRetriesFor
                   (fullConfig (mkPartial None None None None (Some retryStatusCallback)))
                   (httpError (status r) (bodyText r)) = 5).
  { unfold maxRetriesFor. now rewrite Hov. }
  rewrite Hcap in Hr. change (Z.to_nat 5) with 5%nat in Hr. rewrite Hr in *.
  exists w, tr. split; [exact Hrun |]. split; [exact Hcalls |].
  assert (Hdelay : forall n,
            chooseDelay
              (fullConfig (mkPartial None None None None (Some retryStatusCallback)))
              (httpError (status r) (bodyText r)) n
            = index [10000; 20000; 40000; 60000; 60000] (Z.min (n - 1) 4)).
  { intros n. unfold chooseDelay. rewrite Hov.
    apply RegexFacts.matchRetryAfter_none in Hno.
    unfold extractRetryAfter. rewrite Hno. reflexivity. }
  apply sleeps_of_five; [exact Hlen | | | | |];
    rewrite Hnth by lia; rewrite Hdelay; reflexivity.
Qed.

Lemma overloaded_service_is_tried_six_times_witness :
  exists w tr,
    getChatCompletion
      (fun (_ : RequestBody) (s : unit) =>
         (Return (mkResponse 529 "overloaded_error" (Return [])), s))
      "claude" false [mkMessage "user" "hi"] tt
    = Some (Throw (httpError 529 "overloaded_error"), w, tr)
    /\ calls tr = 6%nat
    /\ sleeps tr
       = [Some 10000; Some 20000; Some 40000; Some 60000; Some 60000].
Proof.
  refine (overloaded_service_is_tried_six_times
            (fun (_ : RequestBody) (s : unit) =>
               (Return (mkResponse 529 "overloaded_error" (Return [])), s))
            "claude" false [mkMessage "user" "hi"] tt
            (mkResponse 529 "overloaded_error" (Return [])) _ _ _).
  - right. right. reflexivity.
  - apply RegexFacts.matchRetryAfter_none. reflexivity.
  - intros body w. reflexivity.
Defined.

(** X14.  A response outside 200 .. 299 gives an overload-class error
    whenever its status is 429, 503 or 529, and also whenever its body
    contains one of the markers in any case, whatever the status. *)
Theorem overload_class_by_status_or_body (r : Response) :
  ~ (200 <= status r <= 299) ->
  (status r = 429 \/ status r = 503 \/ status r = 529)
  \/ (exists m, In m overloadMarkers
                /\ Substring m (toLowerCase (bodyText r))) ->
  isOverloadedError (httpError (status r) (bodyText r)) = true
  /\ handleApiResponse r = Throw (httpError (status r) (bodyText r)).
Proof.
  intros Hbad Hwhy. split; [| now apply handleApiResponse_failure].
  destruct Hwhy as [Hstatus | [m [Hin Hsub]]].
  - destruct (overload_status_is_overload_class r Hstatus) as [e [He Hov]].
    rewrite handleApiResponse_failure in He by lia. now injection He as <-.
  - apply ClassifyFacts.marker_makes_overloaded. exists m.
    split; [exact Hin |]. unfold httpError. cbn [message].
    rewrite !toLowerCase_app. now do 3 apply Substring_app_r.
Qed.

Lemma overload_class_by_status_or_body_witness :
  isOverloadedError (httpError 400 "Rate Limit reached for requests") = true.
Proof.
  refine (proj1 (overload_class_by_status_or_body
                   (mkResponse 400 "Rate Limit reached for requests" (Return []))
                   _ _)).
  - simpl. lia.
  - right. exists "rate limit"%string. split; [simpl; tauto |].
    exists ""%string, " reached for requests"%string. reflexivity.
Defined.

End AdapterFacts.

(* ================================================================== *)
(** ** Facts about replace *)
(* ================================================================== *)

Module ReplaceFacts.
Import JsString JsStringFacts JsReplace.
Local Open Scope string_scope.

Lemma length_append (a b : string) :
  String.length (a ++ b) = (String.length a + String.length b)%nat.
Proof. induction a as [|x a IH]; simpl; [reflexivity | now rewrite IH]. Qed.

Lemma dropChars_prefix (p s : string) : dropChars (String.length p) (p ++ s) = s.
Proof. induction p as [|x p IH]; simpl; [reflexivity | exact IH]. Qed.

Lemma dropChars_app (n : nat) (x s : string) :
  (n <= String.length x)%nat -> dropChars n (x ++ s) = dropChars n x ++ s.
Proof.
  revert x. induction n as [|n IH]; intros x Hn; [reflexivity |].
  destruct x as [|c x]; simpl in *; [lia |]. apply IH. lia.
Qed.

Lemma startsWith_length (p s : string) :
  startsWith p s = true -> (String.length p <= String.length s)%nat.
Proof.
  intros H. apply startsWith_spec in H as [post ->].
  rewrite length_append. lia.
Qed.

Lemma lacks_app (c : ascii) (a b : string) :
  lacks c (a ++ b) = lacks c a && lacks c b.
Proof.
  induction a as [|x a IH]; simpl; [reflexivity |].
  now rewrite IH, andb_assoc.
Qed.

(** A pattern without the character [c] cannot end inside a text that
    starts with [c]. *)
Lemma startsWith_straddle (pat x : string) (c : ascii) (s : string) :
  lacks c pat = true ->
  startsWith pat (x ++ String c s) = startsWith pat x.
Proof.
  revert x. induction pat as [|a pat IH]; intros x Hl; [now destruct x |].
  simpl in Hl. apply andb_true_iff in Hl as [Ha Hl].
  destruct x as [|b x]; simpl.
  - apply negb_true_iff in Ha. now rewrite Ha.
  - now rewrite (IH x Hl).
Qed.

(** A pattern that begins with [c] does not begin where another character
    stands. *)
Lemma startsWith_other_head (c : ascii) (pat : string) (y : ascii) (s : string) :
  Ascii.eqb y c = false -> startsWith (String c pat) (String y s) = false.
Proof. simpl. intros H. rewrite Ascii.eqb_sym. now rewrite H. Qed.

Lemma splitAtFirst_spec (pat s a b : string) :
  splitAtFirst pat s = Some (a, b) -> s = a ++ pat ++ b.
Proof.
  revert a b. induction s as [|c s IH]; intros a b; cbn [splitAtFirst].
  - destruct (startsWith pat "") eqn:E; [| discriminate].
    intros [= <- <-]. apply startsWith_spec in E as [post E].
    destruct pat; [reflexivity | discriminate].
  - destruct (startsWith pat (String c s)) eqn:E.
    + intros [= <- <-]. apply startsWith_spec in E as [post E].
      rewrite E, dropChars_prefix. reflexivity.
    + destruct (splitAtFirst pat s) as [[a' b']|]; [| discriminate].
      intros [= <- <-]. simpl. now rewrite (IH a' b' eq_refl).
Qed.

(** The first occurrence in [x ++ s] is the first occurrence in [x] when
    there is one, and otherwise the first occurrence in [s], when [s] starts
    with a character the pattern does not have. *)
Lemma splitAtFirst_app (pat x : string) (c : ascii) (s : string) :
  lacks c pat = true ->
  splitAtFirst pat (x ++ String c s)
  = match splitAtFirst pat x with
    | Some (a, b) => Some (a, b ++ String c s)
    | None =>
        match splitAtFirst pat (String c s) with
        | Some (a, b) => Some (x ++ a, b)
        | None => None
        end
    end.
Proof.
  intros Hl. remember (splitAtFirst pat (String c s)) as inTail eqn:Etail.
  induction x as [|y x IH].
  - cbn [append]. rewrite <- Etail.
    destruct pat as [|a pat]; [now subst inTail |].
    change (splitAtFirst (String a pat) "") with (@None (string * string)).
    now destruct inTail as [[a' b']|].
  - cbn [append]. cbn [splitAtFirst].
    change (String y (x ++ String c s)) with (String y x ++ String c s) at 1.
    rewrite (startsWith_straddle pat (String y x) c s Hl).
    destruct (startsWith pat (String y x)) eqn:E.
    + change (String y (x ++ String c s)) with (String y x ++ String c s).
      rewrite dropChars_app by now apply startsWith_length. reflexivity.
    + rewrite IH. destruct (splitAtFirst pat x) as [[a b]|]; [reflexivity |].
      now destruct inTail as [[a b]|].
Qed.

(** A text without the first character of the pattern is passed over. *)
Lemma splitAtFirst_skip (c : ascii) (pat x s : string) :
  lacks c x = true ->
  splitAtFirst (String c pat) (x ++ s)
  = match splitAtFirst (String c pat) s with
    | Some (a, b) => Some (x ++ a, b)
    | None => None
    end.
Proof.
  induction x as [|y x IH]; intros Hl.
  - cbn [append]. now destruct (splitAtFirst (String c pat) s) as [[a b]|].
  - simpl in Hl. apply andb_true_iff in Hl as [Hy Hl].
    apply negb_true_iff in Hy.
    cbn [append]. cbn [splitAtFirst].
    rewrite (startsWith_other_head c pat y (x ++ s) Hy), (IH Hl).
    now destruct (splitAtFirst (String c pat) s) as [[a b]|].
Qed.

(** A replacement without a dollar sign is inserted as it is. *)
Lemma getSubstitution_plain (matched before after t : string) :
  lacks "$" t = true -> getSubstitution matched before after t = t.
Proof.
  induction t as [|a t IH]; simpl; [reflexivity |].
  intros Hl. apply andb_true_iff in Hl as [Ha Hl].
  apply negb_true_iff in Ha. rewrite Ha. now rewrite (IH Hl).
Qed.

Lemma replaceString_plain (c : ascii) (pat x a b replacement s : string) :
  lacks c x = true -> lacks "$" replacement = true ->
  splitAtFirst (String c pat) s = Some (a, b) ->
  replaceString (String c pat) replacement (x ++ s)
  = x ++ a ++ replacement ++ b.
Proof.
  intros Hx Hr Hs. unfold replaceString.
  rewrite (splitAtFirst_skip c pat x s Hx), Hs.
  rewrite (getSubstitution_plain _ _ _ _ Hr). now rewrite append_assoc.
Qed.

(** Replacing in [w ++ s] leaves what follows the first occurrence in [s]
    at the end, when [s] starts with a character the pattern does not
    have. *)
Lemma replaceString_tail (pat replacement w : string) (c : ascii) (s a b : string) :
  lacks c pat = true ->
  splitAtFirst pat (String c s) = Some (a, b) ->
  exists w', replaceString pat replacement (w ++ String c s) = w' ++ b.
Proof.
  intros Hl Hs. unfold replaceString.
  rewrite (splitAtFirst_app pat w c s Hl).
  destruct (splitAtFirst pat w) as [[a0 b0]|].
  - exists (a0 ++ getSubstitution pat a0 (b0 ++ String c s) replacement
            ++ b0 ++ a ++ pat).
    rewrite !append_assoc. do 3 f_equal.
    exact (splitAtFirst_spec _ _ _ _ Hs).
  - rewrite Hs.
    exists (w ++ a ++ getSubstitution pat (w ++ a) b replacement).
    now rewrite !append_assoc.
Qed.

(** And it leaves what precedes that occurrence in [s] somewhere. *)
Lemma replaceString_keeps (pat replacement w : string) (c : ascii)
  (s a b q : string) :
  lacks c pat = true ->
  splitAtFirst pat (String c s) = Some (a, b) ->
  Substring q a ->
  Substring q (replaceString pat replacement (w ++ String c s)).
Proof.
  intros Hl Hs Hq. unfold replaceString.
  rewrite (splitAtFirst_app pat w c s Hl).
  destruct (splitAtFirst pat w) as [[a0 b0]|].
  - rewrite (splitAtFirst_spec _ _ _ _ Hs).
    do 3 apply Substring_app_r. now apply Substring_app_l.
  - rewrite Hs. apply Substring_app_l, Substring_app_r, Hq.
Qed.

End ReplaceFacts.

(* ================================================================== *)
(** ** The prompt builder *)
(* ================================================================== *)

Module PromptFacts.
Import JsString JsStringFacts JsReplace ReplaceFacts Prompts.
Local Open Scope string_scope.

(** The single-axis template around its placeholders. *)
Lemma spar_split_criteria :
  splitAtFirst "{criteriaString}" SPAR_SYSTEM_MESSAGE
  = Some (sparIntro, sparAfterCriteria).
Proof. vm_compute. reflexivity. Qed.

Lemma spar_split_keyword :
  splitAtFirst "{rankingKeyword}" sparAfterCriteria
  = Some (sparFormat, sparAfterKeyword).
Proof. vm_compute. reflexivity. Qed.

Lemma spar_split_notes :
  splitAtFirst "{notesInstructions}" sparAfterKeyword
  = Some (sparConstraints, sparAfterNotes).
Proof. vm_compute. reflexivity. Qed.

Lemma spar_split_additional :
  splitAtFirst "{additionalInstructions}" sparAfterNotes
  = Some (sparFinalLine, "").
Proof. vm_compute. reflexivity. Qed.

Lemma sparAfterCriteria_head :
  exists s, sparAfterCriteria = String (ascii_of_nat 10) s.
Proof. eexists. vm_compute. reflexivity. Qed.

Lemma sparAfterKeyword_head : exists s, sparAfterKeyword = String " " s.
Proof. eexists. vm_compute. reflexivity. Qed.

Lemma sparAfterNotes_head :
  exists s, sparAfterNotes = String (ascii_of_nat 10) s.
Proof. eexists. vm_compute. reflexivity. Qed.

Lemma sparFinalLine_keeps_placeholder :
  Substring "{rankingKeyword}" sparFinalLine.
Proof. apply includes_spec. vm_compute. reflexivity. Qed.

(** Whatever the four replacements are, the second "{rankingKeyword}" of
    the template is still there after the four calls of [replace]. *)
Lemma spar_chain (r1 r2 r3 r4 : string) :
  Substring "{rankingKeyword}"
    (replaceString "{additionalInstructions}" r4
       (replaceString "{notesInstructions}" r3
          (replaceString "{rankingKeyword}" r2
             (replaceString "{criteriaString}" r1 SPAR_SYSTEM_MESSAGE)))).
Proof.
  assert (H1 : exists w, replaceString "{criteriaString}" r1 SPAR_SYSTEM_MESSAGE
                         = w ++ sparAfterCriteria).
  { unfold replaceString. rewrite spar_split_criteria.
    eexists (sparIntro ++ getSubstitution _ _ _ r1). now rewrite append_assoc. }
  destruct H1 as [w1 ->].
  destruct sparAfterCriteria_head as [s1 Hs1].
  pose proof spar_split_keyword as Hk. rewrite Hs1 in Hk. rewrite Hs1.
  destruct (replaceString_tail "{rankingKeyword}" r2 w1 (ascii_of_nat 10) s1 _ _
              eq_refl Hk)
    as [w2 ->].
  destruct sparAfterKeyword_head as [s2 Hs2].
  pose proof spar_split_notes as Hn. rewrite Hs2 in Hn. rewrite Hs2.
  destruct (replaceString_tail "{notesInstructions}" r3 w2 " "%char s2 _ _
              eq_refl Hn)
    as [w3 ->].
  destruct sparAfterNotes_head as [s3 Hs3].
  pose proof spar_split_additional as Ha. rewrite Hs3 in Ha. rewrite Hs3.
  exact (replaceString_keeps "{additionalInstructions}" r4 w3
           (ascii_of_nat 10) s3 _ _ _
           eq_refl Ha sparFinalLine_keeps_placeholder).
Qed.

(** X15.  With the single-axis template, whatever the variables are, the
    system message that [buildPrompt] builds still contains the text
    "{rankingKeyword}": [replace] with a string pattern replaces the first
    occurrence only, and the template has two. *)
Theorem second_ranking_keyword_stays_a_placeholder
  (applicantData : string) (variables : PromptVariables) :
  exists user system,
    buildPrompt applicantData (mkPromptConfig SPAR_SINGLE_AXIS_TEMPLATE variables)
    = [user; system]
    /\ Substring "{rankingKeyword}" (Anthropic.content system).
Proof.
  eexists. eexists. split; [reflexivity |].
  cbn [Anthropic.content]. unfold builtSystemMessage.
  cbn [template Prompts.variables systemMessage SPAR_SINGLE_AXIS_TEMPLATE].
  destruct (trimmedIfAny (v_notesInstructions variables));
    destruct (trimmedIfAny (v_additionalInstructions variables));
    apply spar_chain.
Qed.

Lemma plain_parts (s : string) :
  plain s = true -> lacks "{" s = true /\ lacks "$" s = true.
Proof. unfold plain. intros H. now apply andb_true_iff in H. Qed.

Lemma plain_app (a b : string) : plain (a ++ b) = plain a && plain b.
Proof.
  unfold plain. rewrite !lacks_app.
  destruct (lacks "{" a), (lacks "{" b), (lacks "$" a), (lacks "$" b); reflexivity.
Qed.

Lemma plain_notesSection (notes kw : string) :
  plain notes = true -> plain kw = true -> plain (notesSection notes kw) = true.
Proof.
  intros Hn Hk. unfold notesSection.
  rewrite !plain_app, Hn, Hk. reflexivity.
Qed.

(** The four replacements on the single-axis template, for replacements
    without braces and dollar signs. *)
Lemma spar_plain_chain (r1 r2 r3 r4 : string) :
  plain r1 = true -> plain r2 = true -> plain r3 = true ->
  lacks "$" r4 = true ->
  replaceString "{additionalInstructions}" r4
    (replaceString "{notesInstructions}" r3
       (replaceString "{rankingKeyword}" r2
          (replaceString "{criteriaString}" r1 SPAR_SYSTEM_MESSAGE)))
  = sparIntro ++ r1 ++ sparFormat ++ r2 ++ sparConstraints ++ r3
    ++ sparFinalLine ++ r4.
Proof.
  intros H1 H2 H3 H4.
  apply plain_parts in H1 as [B1 D1]. apply plain_parts in H2 as [B2 D2].
  apply plain_parts in H3 as [B3 D3].
  assert (Bi : lacks "{" sparIntro = true) by (vm_compute; reflexivity).
  assert (Bf : lacks "{" sparFormat = true) by (vm_compute; reflexivity).
  assert (Bc : lacks "{" sparConstraints = true) by (vm_compute; reflexivity).
  change SPAR_SYSTEM_MESSAGE with ("" ++ SPAR_SYSTEM_MESSAGE).
  rewrite (replaceString_plain "{" "criteriaString}" "" _ _ r1 _
             eq_refl D1 spar_split_criteria).
  cbn [append].
  replace (sparIntro ++ r1 ++ sparAfterCriteria)
    with ((sparIntro ++ r1) ++ sparAfterCriteria) by apply append_assoc.
  rewrite (replaceString_plain "{" "rankingKeyword}" (sparIntro ++ r1) _ _ r2 _
             ltac:(now rewrite lacks_app, Bi, B1) D2 spar_split_keyword).
  replace ((sparIntro ++ r1) ++ sparFormat ++ r2 ++ sparAfterKeyword)
    with ((sparIntro ++ r1 ++ sparFormat ++ r2) ++ sparAfterKeyword)
    by now rewrite !append_assoc.
  rewrite (replaceString_plain "{" "notesInstructions}"
             (sparIntro ++ r1 ++ sparFormat ++ r2) _ _ r3 _
             ltac:(now rewrite !lacks_app, Bi, B1, Bf, B2) D3 spar_split_notes).
  replace ((sparIntro ++ r1 ++ sparFormat ++ r2)
           ++ sparConstraints ++ r3 ++ sparAfterNotes)
    with ((sparIntro ++ r1 ++ sparFormat ++ r2 ++ sparConstraints ++ r3)
          ++ sparAfterNotes)
    by now rewrite !append_assoc.
  rewrite (replaceString_plain "{" "additionalInstructions}"
             (sparIntro ++ r1 ++ sparFormat ++ r2 ++ sparConstraints ++ r3)
             _ _ r4 _
             ltac:(now rewrite !lacks_app, Bi, B1, Bf, B2, Bc, B3)
             H4 spar_split_additional).
  now rewrite !append_assoc, append_nil_r.
Qed.

(** X16.  With the single-axis template and variables without braces and
    dollar signs, the system message is the template with the criteria, the
    ranking keyword (the variable's, or "FINAL_RANKING" when that is absent
    or empty), the notes section when the trimmed notes are not empty and
    the trimmed additional instructions after two line feeds when they are
    not empty; the last line keeps "{rankingKeyword}". *)
Theorem system_message_of_plain_variables (variables : PromptVariables) :
  plain (criteriaString variables) = true ->
  plain (orElse (v_rankingKeyword variables) "FINAL_RANKING") = true ->
  match trimmedIfAny (v_notesInstructions variables) with
  | Some notes => plain notes = true
  | None => True
  end ->
  match trimmedIfAny (v_additionalInstructions variables) with
  | Some additional => lacks "$" additional = true
  | None => True
  end ->
  builtSystemMessage (mkPromptConfig SPAR_SINGLE_AXIS_TEMPLATE variables)
  = sparIntro ++ criteriaString variables
    ++ sparFormat ++ orElse (v_rankingKeyword variables) "FINAL_RANKING"
    ++ sparConstraints
    ++ match trimmedIfAny (v_notesInstructions variables) with
       | Some notes =>
           notesSection notes
             (orElse (v_rankingKeyword variables) "FINAL_RANKING")
       | None => ""
       end
    ++ sparFinalLine
    ++ match trimmedIfAny (v_additionalInstructions variables) with
       | Some additional => lf ++ lf ++ additional
       | None => ""
       end.
Proof.
  intros Hc Hk Hn Ha. unfold builtSystemMessage.
  cbn [template Prompts.variables systemMessage rankingKeyword
       SPAR_SINGLE_AXIS_TEMPLATE].
  destruct (trimmedIfAny (v_notesInstructions variables)) as [notes|];
    destruct (trimmedIfAny (v_additionalInstructions variables)) as [additional|];
    apply spar_plain_chain; try assumption; try reflexivity;
    try (now apply plain_notesSection);
    rewrite !lacks_app, Ha; reflexivity.
Qed.

Lemma system_message_of_plain_variables_witness :
  builtSystemMessage
    (mkPromptConfig SPAR_SINGLE_AXIS_TEMPLATE
       (mkPromptVariables "Publications and impact" None None (Some "  ")))
  = sparIntro ++ "Publications and impact" ++ sparFormat ++ "FINAL_RANKING"
    ++ sparConstraints ++ "" ++ sparFinalLine ++ "".
Proof.
  refine (system_message_of_plain_variables
            (mkPromptVariables "Publications and impact" None None (Some "  "))
            _ _ _ _).
  - reflexivity.
  - reflexivity.
  - exact I.
  - exact I.
Defined.

(** The Anthropic request for a built prompt has the applicant data as its
    only message, with role "user", and the built system message in
    [system]. *)
Lemma built_prompt_is_sent_with_system_field
  (anthropicModel applicantData : string) (config : PromptConfig) :
  Anthropic.requestBodyFor anthropicModel (buildPrompt applicantData config)
  = Return (Anthropic.mkRequestBody anthropicModel
              [Anthropic.mkMessage "user" applicantData]
              (Some (builtSystemMessage config)) 500).
Proof. reflexivity. Qed.

(** X17.  [getTemplate] gives the single-axis template for every
    identifier, known or not. *)
Theorem getTemplate_always_single_axis (templateId : string) :
  getTemplate templateId = SPAR_SINGLE_AXIS_TEMPLATE.
Proof.
  unfold getTemplate, AVAILABLE_TEMPLATES. cbn [find].
  now destruct (String.eqb (id SPAR_SINGLE_AXIS_TEMPLATE) templateId).
Qed.

(** X18.  The ranking keyword of a configuration is the variable's when
    that is a string that is not empty, and the template's otherwise; it is
    not empty when the template's is not. *)
Theorem ranking_keyword_falls_back_to_template (config : PromptConfig) :
  (forall kw, v_rankingKeyword (variables config) = Some kw -> kw <> "" ->
              getRankingKeyword config = kw)
  /\ (v_rankingKeyword (variables config) = None
      \/ v_rankingKeyword (variables config) = Some "" ->
      getRankingKeyword config = rankingKeyword (template config))
  /\ (rankingKeyword (template config) <> "" -> getRankingKeyword config <> "").
Proof.
  unfold getRankingKeyword, orElse. split; [| split].
  - intros kw -> Hne. now destruct kw.
  - intros [-> | ->]; reflexivity.
  - intros Hne. destruct (v_rankingKeyword (variables config)) as [[|c kw]|];
      [exact Hne | discriminate | exact Hne].
Qed.

Lemma ranking_keyword_falls_back_to_template_witness :
  getRankingKeyword
    (mkPromptConfig SPAR_SINGLE_AXIS_TEMPLATE
       (mkPromptVariables "rubric" (Some "") None None))
  = "FINAL_RANKING".
Proof.
  refine (proj1 (proj2 (ranking_keyword_falls_back_to_template
            (mkPromptConfig SPAR_SINGLE_AXIS_TEMPLATE
               (mkPromptVariables "rubric" (Some "") None None)))) _).
  right. reflexivity.
Defined.

End PromptFacts.

(* ================================================================== *)
(** ** Model names *)
(* ================================================================== *)

Module ModelFacts.
Import JsString JsStringFacts JsReplace ReplaceFacts Models.
Local Open Scope string_scope.

(** Without the first character of the pattern in the text, nothing is
    replaced. *)
Lemma replaceAllFrom_lacks (c : ascii) (pat replacement s : string) :
  lacks c s = true ->
  forall before, replaceAllFrom (String c pat) replacement before s 0 = s.
Proof.
  induction s as [|y s IH]; intros Hl before; [reflexivity |].
  simpl in Hl. apply andb_true_iff in Hl as [Hy Hl]. apply negb_true_iff in Hy.
  cbn [replaceAllFrom].
  rewrite (startsWith_other_head c pat y s Hy), (IH Hl). reflexivity.
Qed.

Lemma replaceAll_lacks (c : ascii) (pat replacement s : string) :
  lacks c s = true -> replaceAll (String c pat) replacement s = s.
Proof. intros Hl. now apply replaceAllFrom_lacks. Qed.

(** The name [formatModelName] gives is the label of a listed model or the
    identifier itself. *)
Lemma formatModelName_cases (modelId : string) :
  (exists m, In m allModels /\ value m = modelId
             /\ formatModelName modelId = label m)
  \/ ((forall m, In m allModels -> value m <> modelId)
      /\ formatModelName modelId = modelId).
Proof.
  unfold formatModelName, allModels, OPENAI_MODELS, ANTHROPIC_MODELS.
  cbn [find value label app].
  destruct (String.eqb_spec "gpt-4.1" modelId) as [<- | N1];
    [left; eexists; split; [left; reflexivity | split; reflexivity] |].
  destruct (String.eqb_spec "gpt-5" modelId) as [<- | N2];
    [left; eexists; split; [right; left; reflexivity | split; reflexivity] |].
  destruct (String.eqb_spec "gpt-5-mini" modelId) as [<- | N3];
    [left; eexists; split;
       [right; right; left; reflexivity | split; reflexivity] |].
  destruct (String.eqb_spec "claude-opus-4-20250514" modelId) as [<- | N4];
    [left; eexists; split;
       [right; right; right; left; reflexivity | split; reflexivity] |].
  destruct (String.eqb_spec "claude-sonnet-4-20250514" modelId) as [<- | N5];
    [left; eexists; split;
       [right; right; right; right; left; reflexivity | split; reflexivity] |].
  destruct (String.eqb_spec "claude-3-5-haiku-20241022" modelId) as [<- | N6];
    [left; eexists; split;
       [right; right; right; right; right; left; reflexivity
       | split; reflexivity] |].
  right. split; [| reflexivity].
  intros m [<- | [<- | [<- | [<- | [<- | [<- | []]]]]]]; assumption.
Qed.

Lemma listed_label_facts (m : ModelOption) :
  In m allModels ->
  formatModelName (value m) = label m
  /\ formatModelName (label m) = label m
  /\ plain (label m) = true.
Proof.
  intros [<- | [<- | [<- | [<- | [<- | [<- | []]]]]]];
    (split; [| split]); vm_compute; reflexivity.
Qed.

(** X19.  [formatModelName] gives every listed model of either provider its
    own label, leaves every other identifier as it is, and formatting a
    name again changes nothing. *)
Theorem model_names_of_listed_and_other_ids (modelId : string) :
  (forall m, In m (OPENAI_MODELS ++ ANTHROPIC_MODELS)%list ->
             value m = modelId -> formatModelName modelId = label m)
  /\ ((forall m, In m (OPENAI_MODELS ++ ANTHROPIC_MODELS)%list ->
                 value m <> modelId) ->
      formatModelName modelId = modelId)
  /\ formatModelName (formatModelName modelId) = formatModelName modelId.
Proof.
  split; [| split].
  - intros m Hin <-. now apply listed_label_facts.
  - intros Hnone.
    destruct (formatModelName_cases modelId) as [[m [Hin [Hv _]]] | [_ H]];
      [| exact H].
    exfalso. exact (Hnone m Hin Hv).
  - destruct (formatModelName_cases modelId) as [[m [Hin [_ ->]]] | [_ H]].
    + now apply listed_label_facts.
    + now rewrite !H.
Qed.

Lemma model_names_of_listed_and_other_ids_witness :
  formatModelName "gpt-4o" = "gpt-4o".
Proof.
  refine (proj1 (proj2 (model_names_of_listed_and_other_ids "gpt-4o")) _).
  intros m Hin. simpl in Hin.
  repeat (destruct Hin as [<- | Hin]; [discriminate |]). destruct Hin.
Defined.

Lemma formatModelName_plain (modelId : string) :
  plain modelId = true -> plain (formatModelName modelId) = true.
Proof.
  intros Hp.
  destruct (formatModelName_cases modelId) as [[m [Hin [_ ->]]] | [_ ->]];
    [now apply listed_label_facts | exact Hp].
Qed.

Lemma provider_step (provider : ModelProvider) :
  replaceAll "{provider}"
    match provider with openai => "OpenAI" | anthropic => "Anthropic Claude" end
    "{provider} {model}"
  = match provider with openai => "OpenAI" | anthropic => "Anthropic Claude" end
    ++ " {model}".
Proof. destruct provider; vm_compute; reflexivity. Qed.

Lemma model_step_from (modelName providerName : string) :
  lacks "{" providerName = true -> lacks "$" modelName = true ->
  forall before,
    replaceAllFrom "{model}" modelName before (providerName ++ " {model}") 0
    = providerName ++ " " ++ modelName.
Proof.
  intros Hp Hm.
  induction providerName as [|y x IH]; intros before.
  - cbn. now rewrite (getSubstitution_plain _ _ _ _ Hm), append_nil_r.
  - simpl in Hp. apply andb_true_iff in Hp as [Hy Hp].
    apply negb_true_iff in Hy. cbn [append replaceAllFrom].
    rewrite (startsWith_other_head "{" "model}" y _ Hy), (IH Hp).
    reflexivity.
Qed.

Lemma model_step (providerName modelName : string) :
  lacks "{" providerName = true -> lacks "$" modelName = true ->
  replaceAll "{model}" modelName (providerName ++ " {model}")
  = providerName ++ " " ++ modelName.
Proof. intros Hp Hm. now apply model_step_from. Qed.

(** X20.  With the default template and a model identifier without braces
    and dollar signs, [formatProviderModel] gives the provider's name, a
    space and the model's name. *)
Theorem default_template_gives_provider_and_model
  (provider : ModelProvider) (modelId : string) :
  plain modelId = true ->
  formatProviderModel provider modelId None
  = match provider with openai => "OpenAI" | anthropic => "Anthropic Claude" end
    ++ " " ++ formatModelName modelId.
Proof.
  intros Hp. apply formatModelName_plain, andb_true_iff in Hp as [Hb Hd].
  unfold formatProviderModel. rewrite provider_step.
  rewrite model_step; [| now destruct provider | exact Hd].
  apply replaceAll_lacks. rewrite !lacks_app, Hb. now destruct provider.
Qed.

Lemma default_template_gives_provider_and_model_witness :
  formatProviderModel anthropic "claude-sonnet-4-20250514" None
  = "Anthropic Claude Claude Sonnet 4".
Proof.
  refine (default_template_gives_provider_and_model anthropic
            "claude-sonnet-4-20250514" _).
  reflexivity.
Defined.

(** X21.  A template without an opening brace comes back unchanged,
    whatever the provider and the model are. *)
Theorem template_without_placeholder_is_unchanged
  (provider : ModelProvider) (modelId template : string) :
  lacks "{" template = true ->
  formatProviderModel provider modelId (Some template) = template.
Proof.
  intros Hl. unfold formatProviderModel.
  now rewrite !(replaceAll_lacks "{" _ _ template Hl).
Qed.

Lemma template_without_placeholder_is_unchanged_witness :
  formatProviderModel openai "gpt-5" (Some "Evaluated by AI") = "Evaluated by AI".
Proof.
  refine (template_without_placeholder_is_unchanged openai "gpt-5"
            "Evaluated by AI" _).
  reflexivity.
Defined.

(** X22.  The default model of every provider is one of that provider's
    models, is available, and is shown under that model's label. *)
Theorem default_models_are_listed_and_available (p : ProviderEntry) :
  In p MODEL_PROVIDERS ->
  exists m, In m (p_models p)
            /\ value m = p_defaultModel p
            /\ isAvailable m = true
            /\ formatModelName (p_defaultModel p) = label m.
Proof.
  intros [<- | [<- | []]].
  - exists (mkModelOption "GPT-5 mini" "gpt-5-mini"
              "Compact and fast GPT-5 variant for cost-sensitive use cases"
              (utf8 [240; 159; 159; 162]%nat) true).
    split; [right; right; left; reflexivity |]. now repeat split.
  - exists (mkModelOption "Claude 3.5 Haiku" "claude-3-5-haiku-20241022"
              "Latest fast and cost-effective model from Anthropic"
              (utf8 [240; 159; 146; 168]%nat) true).
    split; [right; right; left; reflexivity |]. now repeat split.
Qed.

Lemma default_models_are_listed_and_available_witness :
  exists m, In m ANTHROPIC_MODELS
            /\ value m = "claude-3-5-haiku-20241022"
            /\ isAvailable m = true
            /\ formatModelName "claude-3-5-haiku-20241022" = label m.
Proof.
  refine (default_models_are_listed_and_available
            (mkProviderEntry "anthropic" "Anthropic Claude"
               (utf8 [240; 159; 167; 160]%nat)
               ANTHROPIC_MODELS DEFAULT_ANTHROPIC_MODEL) _).
  right. left. reflexivity.
Defined.

End ModelFacts.

(* ================================================================== *)
(** ** Reading numbers back *)
(* ================================================================== *)

Module HeaderFacts.
Import JsString JsReplace Models Headers.
Local Open Scope string_scope.

Lemma parseRun_digits_acc (d : Decimal.uint) :
  forall acc : positive,
    parseRun 10 (Z.pos acc) (NilEmpty.string_of_uint d)
    = Z.pos (Pos.of_uint_acc d acc).
Proof.
  induction d; intros acc; cbn [NilEmpty.string_of_uint Pos.of_uint_acc parseRun];
    [reflexivity | ..];
    (match goal with
     | |- context [digitIn 10 ?c] =>
         let v := eval vm_compute in (digitIn 10 c) in
         change (digitIn 10 c) with v
     end; cbv iota beta; rewrite <- IHd; f_equal; lia).
Qed.

Lemma parseRun_digits (d : Decimal.uint) :
  parseRun 10 0 (NilEmpty.string_of_uint d) = Z.of_N (Pos.of_uint d).
Proof.
  induction d; cbn [NilEmpty.string_of_uint Pos.of_uint parseRun];
    [reflexivity | ..];
    (match goal with
     | |- context [digitIn 10 ?c] =>
         let v := eval vm_compute in (digitIn 10 c) in
         change (digitIn 10 c) with v
     end; cbv iota beta);
    [exact IHd | ..];
    (match goal with
     | |- parseRun 10 ?a _ = _ =>
         let p := eval vm_compute in a in change a with p
     end; now rewrite parseRun_digits_acc).
Qed.

Lemma no_hex_prefix (d : Decimal.uint) :
  startsWith "0x" (NilEmpty.string_of_uint d) = false
  /\ startsWith "0X" (NilEmpty.string_of_uint d) = false.
Proof.
  destruct d as [|d|d|d|d|d|d|d|d|d|d]; try (split; reflexivity).
  destruct d; split; reflexivity.
Qed.

(** A numeral without sign is read back as its value. *)
Lemma parseInt_numeral (d : Decimal.uint) :
  d <> Decimal.Nil ->
  parseInt (NilEmpty.string_of_uint d) = Some (Z.of_N (Pos.of_uint d))
  /\ parseInt (String "-" (NilEmpty.string_of_uint d))
     = Some (- Z.of_N (Pos.of_uint d)).
Proof.
  intros Hd. pose proof (parseRun_digits d) as Hrun.
  destruct (no_hex_prefix d) as [Hx HX].
  unfold parseInt.
  replace (trimStart (NilEmpty.string_of_uint d))
    with (NilEmpty.string_of_uint d)
    by (destruct d; try reflexivity; contradiction).
  replace (trimStart (String "-" (NilEmpty.string_of_uint d)))
    with (String "-" (NilEmpty.string_of_uint d)) by reflexivity.
  replace (startsWith "-" (NilEmpty.string_of_uint d)) with false
    by (destruct d; reflexivity).
  replace (startsWith "+" (NilEmpty.string_of_uint d)) with false
    by (destruct d; reflexivity).
  change (startsWith "-" (String "-" (NilEmpty.string_of_uint d))) with true.
  cbn [orb dropChars]. rewrite Hx, HX. cbn [orb].
  rewrite <- Hrun.
  destruct d; [contradiction | ..]; split; reflexivity.
Qed.

Lemma parseInt_showZ (n : Z) : parseInt (showZ n) = Some n.
Proof.
  unfold showZ. destruct n as [|p|p]; [reflexivity | |].
  - cbn [Z.to_int NilZero.string_of_int].
    pose proof (DecimalPos.Unsigned.to_uint_nonnil p) as Hnn.
    replace (NilZero.string_of_uint (Pos.to_uint p))
      with (NilEmpty.string_of_uint (Pos.to_uint p))
      by (destruct (Pos.to_uint p); [contradiction | reflexivity ..]).
    rewrite (proj1 (parseInt_numeral _ Hnn)), DecimalPos.Unsigned.of_to.
    reflexivity.
  - cbn [Z.to_int NilZero.string_of_int].
    pose proof (DecimalPos.Unsigned.to_uint_nonnil p) as Hnn.
    replace (NilZero.string_of_uint (Pos.to_uint p))
      with (NilEmpty.string_of_uint (Pos.to_uint p))
      by (destruct (Pos.to_uint p); [contradiction | reflexivity ..]).
    rewrite (proj2 (parseInt_numeral _ Hnn)), DecimalPos.Unsigned.of_to.
    reflexivity.
Qed.


(** X24.  For headers that carry decimal numbers, [checkRateLimitHeaders]
    warns about the requests exactly when fewer than 10 remain and about
    the tokens exactly when fewer than 1000 remain, requests first. *)
Theorem warnings_follow_the_thresholds (requests tokens : Z)
  (resetTime : option string) :
  checkRateLimitHeaders
    (mkRateLimitHeaders (Some (showZ requests)) (Some (showZ tokens)) resetTime)
  = ((if (requests <? 10)%Z
      then [requestsWarning (showZ requests) resetTime] else [])
     ++ (if (tokens <? 1000)%Z
         then [tokensWarning (showZ tokens) resetTime] else []))%list.
Proof.
  assert (Hbelow : forall t n, below t (Some (showZ n)) = (n <? t)%Z).
  { intros t n. unfold below. pose proof (parseInt_showZ n) as H.
    destruct (showZ n) as [|c r]; [discriminate |]. now rewrite H. }
  unfold checkRateLimitHeaders.
  cbn [requestsRemaining tokensRemaining requestsReset showNullable].
  now rewrite !Hbelow.
Qed.

(** X25.  A header that is absent, empty, or does not start with a number
    gives no warning. *)
Theorem unreadable_headers_give_no_warning (headers : RateLimitHeaders) :
  (requestsRemaining headers = None
   \/ requestsRemaining headers = Some ""
   \/ exists s, requestsRemaining headers = Some s /\ parseInt s = None) ->
  (tokensRemaining headers = None
   \/ tokensRemaining headers = Some ""
   \/ exists s, tokensRemaining headers = Some s /\ parseInt s = None) ->
  checkRateLimitHeaders headers = [].
Proof.
  assert (Hbelow : forall t h,
            (h = None \/ h = Some "" \/ exists s, h = Some s /\ parseInt s = None) ->
            below t h = false).
  { intros t h [-> | [-> | [s [-> Hs]]]]; try reflexivity.
    unfold below. destruct s as [|c r]; [reflexivity | now rewrite Hs]. }
  intros Hr Ht. unfold checkRateLimitHeaders.
  now rewrite (Hbelow 10 _ Hr), (Hbelow 1000 _ Ht).
Qed.

Lemma unreadable_headers_give_no_warning_witness :
  checkRateLimitHeaders (mkRateLimitHeaders None (Some "unlimited") (Some "soon"))
  = [].
Proof.
  refine (unreadable_headers_give_no_warning
            (mkRateLimitHeaders None (Some "unlimited") (Some "soon")) _ _).
  - left. reflexivity.
  - right. right. exists "unlimited". split; reflexivity.
Defined.

End HeaderFacts.

(* ================================================================== *)
(** ** More on the limiter and the caps *)
(* ================================================================== *)

Module EdgeFacts.
Import JsString JsArray Retry RetryTrace LoopFacts RunFacts Governor.
Local Open Scope list_scope.

(** X26.  After a call of [updateRateLimit] that returns a gate, the cached
    limit is the configured one, and a second call returns the same gate
    and changes nothing. *)
Theorem updateRateLimit_settles (w w' : World) (i : nat) :
  updateRateLimit w = (Return i, w') ->
  lastConcurrency w' = configured w'
  /\ configured w' = configured w
  /\ globalRateLimit w' = i
  /\ updateRateLimit w' = (Return i, w').
Proof.
  unfold updateRateLimit.
  destruct (Z.eqb_spec (configured w) (lastConcurrency w)) as [Heq | Hne];
    cbn [negb].
  - intros [= <- <-]. rewrite Heq, Z.eqb_refl. cbn [negb].
    now repeat split.
  - destruct (pLimit (configured w)) as [g | e]; [| discriminate].
    intros [= <- <-]. cbn. rewrite Z.eqb_refl. cbn [negb].
    now repeat split.
Qed.

Lemma updateRateLimit_settles_witness :
  updateRateLimit (mkWorld 3 [mkGate 2 [] []; mkGate 3 [] []] 1 3)
  = (Return 1%nat, mkWorld 3 [mkGate 2 [] []; mkGate 3 [] []] 1 3).
Proof.
  refine (proj2 (proj2 (proj2 (updateRateLimit_settles
            (mkWorld 3 [mkGate 2 [] []] 0 2)
            (mkWorld 3 [mkGate 2 [] []; mkGate 3 [] []] 1 3) 1 _)))).
  reflexivity.
Defined.

(** X27.  With both caps at 0 or below nothing is retried: [fn] is called
    once, nothing is slept, and the run gives what that call gave. *)
Theorem caps_of_zero_mean_one_call {S T}
  (fn : S -> Outcome T * S) (config : PartialRetryConfig) (s : S) :
  maxOverloadRetries (fullConfig config) <= 0 ->
  maxOtherRetries (fullConfig config) <= 0 ->
  exists tr,
    retryWithBackoff fn config s = Some (fst (fn s), snd (fn s), tr)
    /\ calls tr = 1%nat
    /\ sleeps tr = [].
Proof.
  intros Hov Hot.
  destruct (retryWithBackoff_total fn config s) as [[[o w] tr] Hrun].
  destruct (retryLoop_shape (fullConfig config) fn _ s 0 o w tr Hrun)
    as (Hcalls & Hlen & Hw & Hout & Hbound & _).
  assert (Hr : retries tr = 0%nat) by lia.
  rewrite Hr in *. rewrite Hcalls in Hw. cbn in Hw. unfold outcomeAt in Hout.
  cbn in Hout. subst o w.
  exists tr. split; [exact Hrun |]. split; [exact Hcalls |].
  now destruct (sleeps tr).
Qed.

Lemma caps_of_zero_mean_one_call_witness :
  exists tr,
    retryWithBackoff
      (fun s : unit => (@Throw unit (mkError PlainError "boom"), s))
      (mkPartial (Some 0) None (Some 0) None None) tt
    = Some (Throw (mkError PlainError "boom"), tt, tr)
    /\ calls tr = 1%nat
    /\ sleeps tr = [].
Proof.
  refine (caps_of_zero_mean_one_call
            (fun s : unit => (@Throw unit (mkError PlainError "boom"), s))
            (mkPartial (Some 0) None (Some 0) None None) tt _ _).
  - simpl. lia.
  - simpl. lia.
Defined.

End EdgeFacts.

(* ================================================================== *)
(** ** A hint in the body of a response *)
(* ================================================================== *)

Module HintFacts.
Import JsString JsStringFacts JsArray Retry RetryTrace LoopFacts RunFacts RegexFacts.
Import Anthropic AnthropicConstants AnthropicFacts AdapterFacts.
Local Open Scope string_scope.

Lemma matchRetryAfter_step (c : ascii) (s : string) :
  matchHere (String c s) = None ->
  matchRetryAfter (String c s) = matchRetryAfter s.
Proof. intros H. cbn [matchRetryAfter]. now rewrite H. Qed.

Lemma matchHere_needs_r (c : ascii) (s : string) :
  notR c = true -> matchHere (String c s) = None.
Proof.
  unfold notR, matchHere. intros H. apply negb_true_iff in H.
  cbn [matchLiteralCI]. now rewrite H.
Qed.

(** A text without the letter r, in either case, has no match that starts
    in it. *)
Lemma matchRetryAfter_skip (p s : string) :
  allChars notR p = true -> matchRetryAfter (p ++ s) = matchRetryAfter s.
Proof.
  induction p as [|c p IH]; intros Hall; [reflexivity |].
  simpl in Hall. apply andb_true_iff in Hall as [Hc Hp].
  cbn [append]. rewrite matchRetryAfter_step by now apply matchHere_needs_r.
  exact (IH Hp).
Qed.

Lemma numeral_has_no_r (d : Decimal.uint) :
  allChars notR (NilEmpty.string_of_uint d) = true.
Proof. induction d; cbn [NilEmpty.string_of_uint allChars]; auto. Qed.

Lemma showZ_has_no_r (n : Z) : allChars notR (showZ n) = true.
Proof.
  unfold showZ. destruct n as [|p|p]; [reflexivity | |];
    cbn [Z.to_int NilZero.string_of_int NilZero.string_of_uint];
    pose proof (numeral_has_no_r (Pos.to_uint p)) as H;
    destruct (Pos.to_uint p); try reflexivity; cbn [allChars]; exact H.
Qed.

(** The text [handleApiResponse] puts before the body has no match, so the
    hint of the error message is the hint of the body. *)
Lemma matchRetryAfter_httpError (status : Z) (body : string) :
  matchRetryAfter (message (httpError status body)) = matchRetryAfter body.
Proof.
  unfold httpError. cbn [message append].
  repeat (rewrite matchRetryAfter_step by reflexivity).
  rewrite (matchRetryAfter_skip (showZ status) _ (showZ_has_no_r status)).
  cbn [append].
  repeat (rewrite matchRetryAfter_step by reflexivity).
  reflexivity.
Qed.

(** X28.  When every request is answered with status 429, 503 or 529 and
    the body of the response carries a retry-after hint of a number of
    seconds other than 0 and of at most 2^53 ms, [getChatCompletion] makes
    six calls and sleeps that number of seconds, in milliseconds, before
    each of the five retries. *)
Theorem hint_in_the_body_sets_every_delay {S}
  (fetch : RequestBody -> S -> Outcome Response * S)
  (anthropicModel : string) (retryStatusCallback : bool)
  (conversation : list Message) (s : S) (r : Response) (ds : string) :
  status r = 429 \/ status r = 503 \/ status r = 529 ->
  FirstHint ds (bodyText r) ->
  Retry.parseInt ds <> 0 ->
  Retry.parseInt ds * 1000 <= 2 ^ 53 ->
  (forall body w, fst (fetch body w) = Return r) ->
  exists w tr,
    getChatCompletion fetch anthropicModel retryStatusCallback conversation s
    = Some (Throw (httpError (status r) (bodyText r)), w, tr)
    /\ calls tr = 6%nat
    /\ sleeps tr = repeat (Some (Retry.parseInt ds * 1000)) 5.
Proof.
  intros Hstatus Hhint Hnz _ Hnet. unfold getChatCompletion.
  assert (Hov : isOverloadedError (httpError (status r) (bodyText r)) = true).
  { destruct (overload_status_is_overload_class r Hstatus) as [e [He Hov]].
    rewrite handleApiResponse_failure in He by lia. injection He as <-.
    exact Hov. }
  destruct (constant_failure_run (apiCall fetch anthropicModel conversation)
              (mkPartial None None None None (Some retryStatusCallback)) s
              (httpError (status r) (bodyText r)))
    as (w & tr & Hrun & Hr & Hcalls & Hlen & Hnth).
  { intros w. apply apiCall_failure; [lia |]. intros body. apply Hnet. }
  assert (Hcap : maxRetriesFor
                   (fullConfig (mkPartial None None None None (Some retryStatusCallback)))
                   (httpError (status r) (bodyText r)) = 5).
  { unfold maxRetriesFor. now rewrite Hov. }
  rewrite Hcap in Hr. change (Z.to_nat 5) with 5%nat in Hr. rewrite Hr in *.
  exists w, tr. split; [exact Hrun |]. split; [exact Hcalls |].
  assert (Hdelay : forall n,
            chooseDelay
              (fullConfig (mkPartial None None None None (Some retryStatusCallback)))
              (httpError (status r) (bodyText r)) n
            = Some (Retry.parseInt ds * 1000)).
  { intros n. unfold chooseDelay, extractRetryAfter.
    rewrite Hov, matchRetryAfter_httpError.
    apply matchRetryAfter_spec in Hhint. rewrite Hhint.
    destruct (Z.eqb_spec (Retry.parseInt ds * 1000) 0); [lia | reflexivity]. }
  cbn [repeat].
  apply sleeps_of_five; [exact Hlen | | | | |];
    rewrite Hnth by lia; rewrite Hdelay; reflexivity.
Qed.

Lemma hint_in_the_body_sets_every_delay_witness :
  exists w tr,
    getChatCompletion
      (fun (_ : RequestBody) (s : unit) =>
         (Return (mkResponse 429 "Rate limit hit. Retry-After: 30" (Return [])), s))
      "claude" false [mkMessage "user" "hi"] tt
    = Some (Throw (httpError 429 "Rate limit hit. Retry-After: 30"), w, tr)
    /\ calls tr = 6%nat
    /\ sleeps tr = repeat (Some (Retry.parseInt "30" * 1000)) 5.
Proof.
  refine (hint_in_the_body_sets_every_delay
            (fun (_ : RequestBody) (s : unit) =>
               (Return (mkResponse 429 "Rate limit hit. Retry-After: 30" (Return [])), s))
            "claude" false [mkMessage "user" "hi"] tt
            (mkResponse 429 "Rate limit hit. Retry-After: 30" (Return []))
            "30" _ _ _ _ _).
  - left. reflexivity.
  - apply matchRetryAfter_spec. reflexivity.
  - vm_compute. discriminate.
  - vm_compute. discriminate.
  - intros body w. reflexivity.
Defined.

End HintFacts.
